(** * configs_builder: the fluent configuration builder of goxkit

    A shallow embedding of package [configsbuilder] (the builder type, its
    enable methods, [Build], [newConfigs], [setupViper],
    [setupObservability] and [loadStructDefaults]) together with the
    properties its specification states about it.

    The package leans on collaborators that live in other modules: Go's
    [reflect] and [strings], the viper key/value store, the [configs]
    schemas and the logging/tracing installers.  What the builder needs from
    them is collected in the classes [Host], [Observability] and
    [Legacy.Collaborators]; every general result below holds for all their
    instances. *)

From stdpp Require Import gmap strings list fin_maps sorting.

Set Default Proof Using "Type".
Open Scope string_scope.
Open Scope list_scope.
Open Scope nat_scope.

(** ** Go values as [reflect] sees them *)

(** A struct tag in its conventional form, [key:"value" key:"value" ...],
    kept as the list of its pairs in the order they are written. *)
Definition StructTag := list (string * string).

(** [reflect.StructTag.Lookup]: the value of the first pair stored under
    [key] and whether there was one. *)
Fixpoint Lookup (tag : StructTag) (key : string) : string * bool :=
  match tag with
  | [] => ("", false)
  | (k, val) :: rest => if String.eqb k key then (val, true) else Lookup rest key
  end.

Record StructField := { Name : string; Tag : StructTag }.

(** A struct type is the list of its fields in declaration order. *)
Definition StructType := list StructField.

Inductive Kind :=
  Invalid | Bool | Int | Float64 | String | Slice | Map | Func | Ptr | Struct.

#[global] Instance Kind_eq_dec : EqDecision Kind.
Proof. solve_decision. Defined.

(** The kinds of the values that are neither structs nor pointers. *)
Inductive Plain := PBool | PInt | PFloat64 | PString | PSlice | PMap | PFunc.

Definition plain_kind (p : Plain) : Kind :=
  match p with
  | PBool => Bool | PInt => Int | PFloat64 => Float64 | PString => String
  | PSlice => Slice | PMap => Map | PFunc => Func
  end.

(** What [reflect.ValueOf] makes of an [interface{}] argument. *)
Inductive Value :=
| Zero                        (* the zero Value: ValueOf(nil), Elem of a nil pointer *)
| Scalar (p : Plain)          (* a bool, number, string, slice, map or func *)
| StructV (typ : StructType)  (* a struct passed by value *)
| NilPtr                      (* a typed nil pointer *)
| PtrTo (elem : Value)        (* a pointer to a value *).

Definition kind (val : Value) : Kind :=
  match val with
  | Zero => Invalid
  | Scalar p => plain_kind p
  | StructV _ => Struct
  | NilPtr | PtrTo _ => Ptr
  end.

(** [Value.Elem]; the builder only calls it on pointers. *)
Definition Elem (val : Value) : Value :=
  match val with
  | PtrTo x => x
  | _ => Zero
  end.

(** [Value.Type] of a struct value, as the list of its fields. *)
Definition type_of (val : Value) : StructType :=
  match val with
  | StructV typ => typ
  | _ => []
  end.

Definition NumField (val : Value) : nat := length (type_of val).

(** ** The builder, the world it runs in and Go's control flow *)

Definition error := string.

(** The schema types of package [configs] the builder instantiates. *)
Inductive Schema :=
| AppSchema | OTLPSchema | HTTPSchema | PostgresSchema | IdentitySchema
| MQTTSchema | RabbitMQSchema | AWSSchema | DynamoDBSchema.

#[global] Instance Schema_eq_dec : EqDecision Schema.
Proof. solve_decision. Defined.

(** A [*zap.Logger] that is not nil, known by its handle. *)
Definition ZapLogger := nat.

Inductive Installer := OtlpLogging | OtlpTracing | NoopLogging.

#[global] Instance Installer_eq_dec : EqDecision Installer.
Proof. solve_decision. Defined.

(** The calls the builder makes to its collaborators, with what they
    answered. *)
Inductive Event :=
| EvReadInConfig (path : string) (err : option error)
| EvUnmarshal (target : Schema) (err : option error)
| EvInstall (which : Installer) (err : option error)
| EvNewDefaultLogger (err : option error)
| EvLogError (logger : ZapLogger) (msg : string) (err : error).

#[global] Instance Event_eq_dec : EqDecision Event.
Proof. solve_decision. Defined.

Record configsBuilder := {
  Err : option error;
  http : bool;
  otlp : bool;
  postgres : bool;
  identity : bool;
  mqtt : bool;
  rabbitmq : bool;
  aws : bool;
  dynamoDB : bool;
}.

(** [&configsBuilder{}] *)
Definition zeroBuilder : configsBuilder :=
  {| Err := None; http := false; otlp := false; postgres := false;
     identity := false; mqtt := false; rabbitmq := false; aws := false;
     dynamoDB := false |}.

(** Builders live on the heap and are handled through pointers. *)
Definition loc := positive.

Record World := {
  builders : gmap loc configsBuilder;
  trace : list Event;
}.

(** A statement either goes on to the next one, returns from the function
    it is in, or panics. *)
Inductive Step (R A : Type) :=
| Next (a : A) (w : World)
| Return (r : R) (w : World)
| Panic (w : World).
Arguments Next {R A}.
Arguments Return {R A}.
Arguments Panic {R A}.

Definition Proc (R A : Type) := World → Step R A.

Definition pure {R A} (a : A) : Proc R A := λ w, Next a w.

Definition bind {R A B} (m : Proc R A) (k : A → Proc R B) : Proc R B :=
  λ w, match m w with
       | Next a w' => k a w'
       | Return r w' => Return r w'
       | Panic w' => Panic w'
       end.

Definition return_ {R A} (r : R) : Proc R A := λ w, Return r w.

Definition panic {R A} : Proc R A := λ w, Panic w.

#[global] Instance Proc_ret {R} : MRet (Proc R) := λ A a, pure a.
#[global] Instance Proc_bind {R} : MBind (Proc R) := λ A B k m, bind m k.

(** How a call ends. *)
Inductive Outcome (R : Type) :=
| Returned (r : R) (w : World)
| Panicked (w : World).
Arguments Returned {R}.
Arguments Panicked {R}.

(** A function made of its body. *)
Definition fn {R} (body : Proc R R) : World → Outcome R :=
  λ w, match body w with
       | Next r w' | Return r w' => Returned r w'
       | Panic w' => Panicked w'
       end.

(** A call of a function, as a statement of the caller. *)
Definition call {R A} (f : World → Outcome A) : Proc R A :=
  λ w, match f w with
       | Returned a w' => Next a w'
       | Panicked w' => Panic w'
       end.

Definition emit {R} (ev : Event) : Proc R unit :=
  λ w, Next () {| builders := builders w; trace := (trace w ++ [ev])%list |}.

(** [b.field]: reading through a nil or dangling pointer panics. *)
Definition read {R A} (b : loc) (field : configsBuilder → A) : Proc R A :=
  λ w, match builders w !! b with
       | Some this => Next (field this) w
       | None => Panic w
       end.

(** [b.field = x] *)
Definition write {R} (b : loc) (upd : configsBuilder → configsBuilder) : Proc R unit :=
  λ w, match builders w !! b with
       | Some this =>
           Next () {| builders := <[b := upd this]> (builders w); trace := trace w |}
       | None => Panic w
       end.

(** Dereferencing a pointer a callee returned. *)
Definition deref {R A} (p : option A) : Proc R A :=
  match p with
  | Some x => pure x
  | None => panic
  end.

(** [logger.Error(msg, zap.Error(err))]; a nil [*zap.Logger] panics. *)
Definition logError {R} (logger : option ZapLogger) (msg : string) (err : error)
  : Proc R unit :=
  match logger with
  | Some l => emit (EvLogError l msg err)
  | None => panic
  end.

(** ** Collaborators outside the package *)

Class Host := {
  (** [strings.ToLower] and [strings.ToUpper] *)
  ToLower : string → string;
  ToUpper : string → string;
  (** the environment of the process: [os.Getenv], [os.LookupEnv] *)
  environ : gmap string string;
  (** [configs.NewEnvironment(name).EnvFile()] *)
  EnvFile : string → string;
  (** the fields and tags of the schema types *)
  schemaOf : Schema → StructType;
  (** reading and parsing the .env file at a path: its entries under
      their lower-cased keys, or the load error *)
  readEnvFile : string → gmap string string + error;
  (** typed field values and the coercion of a looked-up text (or of its
      absence) into the type of a field *)
  FieldValue : Type;
  decode : StructField → option string → FieldValue + error;
}.

Section store.
Context `{Host}.

(** ** The key/value store *)

(** Modelled from the spec: the key/value store ([*viper.Viper]) belongs to
    an external module and is missing from the sources.  The model keeps
    what the specification says of it: its three sources, live environment
    over file over registered defaults, and deserialization by
    tag-directed field mapping.  Keys are folded with [ToLower] on the way
    in, as the library does. *)
Record Viper := {
  configFile : string;
  configType : string;
  automaticEnvApplied : bool;
  config : gmap string string;
  defaults : gmap string string;
}.

Definition New : Viper :=
  {| configFile := ""; configType := ""; automaticEnvApplied := false;
     config := ∅; defaults := ∅ |}.

Definition SetConfigFile (v : Viper) (path : string) : Viper :=
  {| configFile := path; configType := configType v;
     automaticEnvApplied := automaticEnvApplied v;
     config := config v; defaults := defaults v |}.

Definition SetConfigType (v : Viper) (t : string) : Viper :=
  {| configFile := configFile v; configType := t;
     automaticEnvApplied := automaticEnvApplied v;
     config := config v; defaults := defaults v |}.

Definition AutomaticEnv (v : Viper) : Viper :=
  {| configFile := configFile v; configType := configType v;
     automaticEnvApplied := true;
     config := config v; defaults := defaults v |}.

Definition ReadInConfig (v : Viper) : Viper * option error :=
  match readEnvFile (configFile v) with
  | inl entries =>
      ({| configFile := configFile v; configType := configType v;
          automaticEnvApplied := automaticEnvApplied v;
          config := entries; defaults := defaults v |}, None)
  | inr e => (v, Some e)
  end.

(** Modelled from the spec: [SetDefault] registers a fallback for a key;
    it replaces the fallback registered before for that key and leaves the
    explicit sources alone. *)
Definition SetDefault (v : Viper) (key value : string) : Viper :=
  {| configFile := configFile v; configType := configType v;
     automaticEnvApplied := automaticEnvApplied v;
     config := config v;
     defaults := <[ToLower key := value]> (defaults v) |}.

(** Modelled from the spec: the value an explicit source has for a
    lower-cased key, the live environment first, then the file. *)
Definition explicit (v : Viper) (lcaseKey : string) : option string :=
  match (if automaticEnvApplied v then environ !! ToUpper lcaseKey else None) with
  | Some x => Some x
  | None => config v !! lcaseKey
  end.

(** Modelled from the spec: a read falls back on the registered default
    only when no explicit source has the key. *)
Definition find (v : Viper) (lcaseKey : string) : option string :=
  match explicit v lcaseKey with
  | Some x => Some x
  | None => defaults v !! lcaseKey
  end.

Definition Get (v : Viper) (key : string) : option string := find v (ToLower key).

(** The contents of a schema instance: one slot per field, in declaration
    order, [None] while the field still holds its zero value. *)
Definition Instance := list (option FieldValue).

(** [&T{}] *)
Definition new_instance (typ : StructType) : Instance := replicate (length typ) None.

(** The key a field is read from: its [mapstructure] tag. *)
Definition mappingKey (field : StructField) : option string :=
  match Lookup (Tag field) "mapstructure" with
  | (k, true) => if String.eqb k "" then None else Some k
  | (_, false) => None
  end.

(** What the store hands to the decoder for a field. *)
Definition fieldSource (v : Viper) (field : StructField) : option string :=
  match mappingKey field with
  | Some k => Get v k
  | None => None
  end.

(** Modelled from the spec: deserialization by tag-directed field mapping.
    Every field is decoded on its own from what the store has under its
    mapping key; a field that fails keeps its content and the first failure
    is reported. *)
Fixpoint decodeFields (v : Viper) (typ : StructType) (inst : Instance)
  : Instance * option error :=
  match typ, inst with
  | field :: typ', slot :: inst' =>
      let '(rest, err) := decodeFields v typ' inst' in
      match decode field (fieldSource v field) with
      | inl x => (Some x :: rest, err)
      | inr e => (slot :: rest, Some e)
      end
  | _, _ => (inst, None)
  end.

Definition Unmarshal (v : Viper) (typ : StructType) (inst : Instance)
  : Instance * option error := decodeFields v typ inst.

(** ** The Default Injector *)

(** The body of the loop of [loadStructDefaults], run for the [n] indices
    from [i] on. *)
Fixpoint loadStructDefaults_loop (typ : StructType) (n i : nat) (v : Viper) : Viper :=
  match n with
  | 0 => v
  | S n' =>
      match typ !! i with
      | None => v
      | Some field =>
          let '(defaultVal, ok) := Lookup (Tag field) "default" in
          if negb ok || String.eqb defaultVal "" then
            loadStructDefaults_loop typ n' (S i) v
          else
            let '(envKey, ok) := Lookup (Tag field) "mapstructure" in
            if negb ok || String.eqb envKey "" then
              loadStructDefaults_loop typ n' (S i) v
            else
              loadStructDefaults_loop typ n' (S i) (SetDefault v envKey defaultVal)
      end
  end.

Definition loadStructDefaults (v : Viper) (structPtr : Value) : Viper :=
  let val := structPtr in
  let val := if decide (kind val = Ptr) then Elem val else val in
  if decide (kind val ≠ Struct) then v
  else
    let typ := type_of val in
    loadStructDefaults_loop typ (NumField val) 0 v.

End store.

(** ** What the Default Injector registers, in the words of the spec *)

Section injector_spec.
Context `{Host}.

(** The pair a field registers: its mapping key and its default, when it
    declares both and neither is empty. *)
Definition declaresBoth (field : StructField) : option (string * string) :=
  match Lookup (Tag field) "mapstructure", Lookup (Tag field) "default" with
  | (k, true), (d, true) =>
      if String.eqb k "" || String.eqb d "" then None else Some (k, d)
  | _, _ => None
  end.

Definition registrations (typ : StructType) : list (string * string) :=
  omap declaresBoth typ.

Definition register (v : Viper) (kd : string * string) : Viper :=
  SetDefault v kd.1 kd.2.

(** The default that a list of registrations leaves under a lower-cased
    key: the one registered last. *)
Fixpoint lastDefault (regs : list (string * string)) (lcaseKey : string)
  : option string :=
  match regs with
  | [] => None
  | (k, d) :: rest =>
      match lastDefault rest lcaseKey with
      | Some d' => Some d'
      | None => if decide (ToLower k = lcaseKey) then Some d else None
      end
  end.

(** What a field that declares both annotations falls back to when no
    explicit source has its key: the default a later field registers under
    the same key, and its own when there is none. *)
Definition fallback (typ : StructType) (i : nat) (k d : string) : string :=
  default d (lastDefault (registrations (drop (S i) typ)) (ToLower k)).

(** Override precedence as the specification words it: after injection,
    every field with both annotations reads the explicit value of its key
    and, without one, its own declared default. *)
Definition explicitBeatsOwnDefault (v : Viper) (typ : StructType) : Prop :=
  ∀ (i : nat) (field : StructField) (k d : string),
    typ !! i = Some field → declaresBoth field = Some (k, d) →
    fieldSource (loadStructDefaults v (PtrTo (StructV typ))) field
    = Some (default d (explicit v (ToLower k))).

End injector_spec.

(** ** The bundle and the installers *)

Section bundle.
Context `{Host}.

(** [os.Getenv] *)
Definition Getenv (key : string) : string := default "" (environ !! key).

(** [configs.Configs]; its pointer fields are [None] while nil. *)
Record Configs := {
  AppConfigs : option Instance;
  OTLPConfigs : option Instance;
  HTTPConfigs : option Instance;
  PostgresConfigs : option Instance;
  IdentityConfigs : option Instance;
  MQTTConfigs : option Instance;
  RabbitMQConfigs : option Instance;
  AWSConfigs : option Instance;
  DynamoDBConfigs : option Instance;
  Logger : option ZapLogger;
  Custom : Viper;
}.

(** What [Install] of a logging package returns, a [*zap.Logger] and an
    [error]: the active logger, or an error next to a logger that may be
    nil. *)
Inductive Installed :=
| Active (logger : ZapLogger)
| Failed (logger : option ZapLogger) (err : error).

Definition installedLogger (r : Installed) : option ZapLogger :=
  match r with
  | Active l => Some l
  | Failed l _ => l
  end.

Definition installedErr (r : Installed) : option error :=
  match r with
  | Active _ => None
  | Failed _ e => Some e
  end.

Class Observability := {
  otlpLogging_Install : Configs → Installed;
  otlpTracing_Install : Configs → option error;
  noopLogging_Install : Configs → Installed;
}.

End bundle.

(** ** The builder's methods *)

Section builder.
Context `{Observability}.

(** [cfgs.AppConfigs = x] *)
Definition withAppConfigs (cfgs : Configs) (x : option Instance) : Configs :=
  {| AppConfigs := x;
     OTLPConfigs := OTLPConfigs cfgs;
     HTTPConfigs := HTTPConfigs cfgs;
     PostgresConfigs := PostgresConfigs cfgs;
     IdentityConfigs := IdentityConfigs cfgs;
     MQTTConfigs := MQTTConfigs cfgs;
     RabbitMQConfigs := RabbitMQConfigs cfgs;
     AWSConfigs := AWSConfigs cfgs;
     DynamoDBConfigs := DynamoDBConfigs cfgs;
     Logger := Logger cfgs;
     Custom := Custom cfgs |}.

(** [cfgs.OTLPConfigs = x] *)
Definition withOTLPConfigs (cfgs : Configs) (x : option Instance) : Configs :=
  {| AppConfigs := AppConfigs cfgs;
     OTLPConfigs := x;
     HTTPConfigs := HTTPConfigs cfgs;
     PostgresConfigs := PostgresConfigs cfgs;
     IdentityConfigs := IdentityConfigs cfgs;
     MQTTConfigs := MQTTConfigs cfgs;
     RabbitMQConfigs := RabbitMQConfigs cfgs;
     AWSConfigs := AWSConfigs cfgs;
     DynamoDBConfigs := DynamoDBConfigs cfgs;
     Logger := Logger cfgs;
     Custom := Custom cfgs |}.

(** [cfgs.HTTPConfigs = x] *)
Definition withHTTPConfigs (cfgs : Configs) (x : option Instance) : Configs :=
  {| AppConfigs := AppConfigs cfgs;
     OTLPConfigs := OTLPConfigs cfgs;
     HTTPConfigs := x;
     PostgresConfigs := PostgresConfigs cfgs;
     IdentityConfigs := IdentityConfigs cfgs;
     MQTTConfigs := MQTTConfigs cfgs;
     RabbitMQConfigs := RabbitMQConfigs cfgs;
     AWSConfigs := AWSConfigs cfgs;
     DynamoDBConfigs := DynamoDBConfigs cfgs;
     Logger := Logger cfgs;
     Custom := Custom cfgs |}.

(** [cfgs.PostgresConfigs = x] *)
Definition withPostgresConfigs (cfgs : Configs) (x : option Instance) : Configs :=
  {| AppConfigs := AppConfigs cfgs;
     OTLPConfigs := OTLPConfigs cfgs;
     HTTPConfigs := HTTPConfigs cfgs;
     PostgresConfigs := x;
     IdentityConfigs := IdentityConfigs cfgs;
     MQTTConfigs := MQTTConfigs cfgs;
     RabbitMQConfigs := RabbitMQConfigs cfgs;
     AWSConfigs := AWSConfigs cfgs;
     DynamoDBConfigs := DynamoDBConfigs cfgs;
     Logger := Logger cfgs;
     Custom := Custom cfgs |}.

(** [cfgs.IdentityConfigs = x] *)
Definition withIdentityConfigs (cfgs : Configs) (x : option Instance) : Configs :=
  {| AppConfigs := AppConfigs cfgs;
     OTLPConfigs := OTLPConfigs cfgs;
     HTTPConfigs := HTTPConfigs cfgs;
     PostgresConfigs := PostgresConfigs cfgs;
     IdentityConfigs := x;
     MQTTConfigs := MQTTConfigs cfgs;
     RabbitMQConfigs := RabbitMQConfigs cfgs;
     AWSConfigs := AWSConfigs cfgs;
     DynamoDBConfigs := DynamoDBConfigs cfgs;
     Logger := Logger cfgs;
     Custom := Custom cfgs |}.

(** [cfgs.MQTTConfigs = x] *)
Definition withMQTTConfigs (cfgs : Configs) (x : option Instance) : Configs :=
  {| AppConfigs := AppConfigs cfgs;
     OTLPConfigs := OTLPConfigs cfgs;
     HTTPConfigs := HTTPConfigs cfgs;
     PostgresConfigs := PostgresConfigs cfgs;
     IdentityConfigs := IdentityConfigs cfgs;
     MQTTConfigs := x;
     RabbitMQConfigs := RabbitMQConfigs cfgs;
     AWSConfigs := AWSConfigs cfgs;
     DynamoDBConfigs := DynamoDBConfigs cfgs;
     Logger := Logger cfgs;
     Custom := Custom cfgs |}.

(** [cfgs.RabbitMQConfigs = x] *)
Definition withRabbitMQConfigs (cfgs : Configs) (x : option Instance) : Configs :=
  {| AppConfigs := AppConfigs cfgs;
     OTLPConfigs := OTLPConfigs cfgs;
     HTTPConfigs := HTTPConfigs cfgs;
     PostgresConfigs := PostgresConfigs cfgs;
     IdentityConfigs := IdentityConfigs cfgs;
     MQTTConfigs := MQTTConfigs cfgs;
     RabbitMQConfigs := x;
     AWSConfigs := AWSConfigs cfgs;
     DynamoDBConfigs := DynamoDBConfigs cfgs;
     Logger := Logger cfgs;
     Custom := Custom cfgs |}.

(** [cfgs.AWSConfigs = x] *)
Definition withAWSConfigs (cfgs : Configs) (x : option Instance) : Configs :=
  {| AppConfigs := AppConfigs cfgs;
     OTLPConfigs := OTLPConfigs cfgs;
     HTTPConfigs := HTTPConfigs cfgs;
     PostgresConfigs := PostgresConfigs cfgs;
     IdentityConfigs := IdentityConfigs cfgs;
     MQTTConfigs := MQTTConfigs cfgs;
     RabbitMQConfigs := RabbitMQConfigs cfgs;
     AWSConfigs := x;
     DynamoDBConfigs := DynamoDBConfigs cfgs;
     Logger := Logger cfgs;
     Custom := Custom cfgs |}.

(** [cfgs.DynamoDBConfigs = x] *)
Definition withDynamoDBConfigs (cfgs : Configs) (x : option Instance) : Configs :=
  {| AppConfigs := AppConfigs cfgs;
     OTLPConfigs := OTLPConfigs cfgs;
     HTTPConfigs := HTTPConfigs cfgs;
     PostgresConfigs := PostgresConfigs cfgs;
     IdentityConfigs := IdentityConfigs cfgs;
     MQTTConfigs := MQTTConfigs cfgs;
     RabbitMQConfigs := RabbitMQConfigs cfgs;
     AWSConfigs := AWSConfigs cfgs;
     DynamoDBConfigs := x;
     Logger := Logger cfgs;
     Custom := Custom cfgs |}.

(** [cfgs.Logger = x] *)
Definition withLogger (cfgs : Configs) (x : option ZapLogger) : Configs :=
  {| AppConfigs := AppConfigs cfgs;
     OTLPConfigs := OTLPConfigs cfgs;
     HTTPConfigs := HTTPConfigs cfgs;
     PostgresConfigs := PostgresConfigs cfgs;
     IdentityConfigs := IdentityConfigs cfgs;
     MQTTConfigs := MQTTConfigs cfgs;
     RabbitMQConfigs := RabbitMQConfigs cfgs;
     AWSConfigs := AWSConfigs cfgs;
     DynamoDBConfigs := DynamoDBConfigs cfgs;
     Logger := x;
     Custom := Custom cfgs |}.

(** [cfgs.Custom = x] *)
Definition withCustom (cfgs : Configs) (x : Viper) : Configs :=
  {| AppConfigs := AppConfigs cfgs;
     OTLPConfigs := OTLPConfigs cfgs;
     HTTPConfigs := HTTPConfigs cfgs;
     PostgresConfigs := PostgresConfigs cfgs;
     IdentityConfigs := IdentityConfigs cfgs;
     MQTTConfigs := MQTTConfigs cfgs;
     RabbitMQConfigs := RabbitMQConfigs cfgs;
     AWSConfigs := AWSConfigs cfgs;
     DynamoDBConfigs := DynamoDBConfigs cfgs;
     Logger := Logger cfgs;
     Custom := x |}.

(** [NewConfigsBuilder]: a pointer to a fresh builder with nothing enabled. *)
Definition NewConfigsBuilder : World → Outcome loc :=
  fn (λ w, let b := fresh (dom (builders w)) in
           Return b {| builders := <[b := zeroBuilder]> (builders w);
                       trace := trace w |}).

(** [b.http = true; return b] *)
Definition HTTP (b : loc) : World → Outcome loc :=
  fn (write b (λ this,
      {| Err := Err this; http := true; otlp := otlp this;
         postgres := postgres this; identity := identity this;
         mqtt := mqtt this; rabbitmq := rabbitmq this;
         aws := aws this; dynamoDB := dynamoDB this |});;
      return_ b).

(** [b.otlp = true; return b] *)
Definition Otlp (b : loc) : World → Outcome loc :=
  fn (write b (λ this,
      {| Err := Err this; http := http this; otlp := true;
         postgres := postgres this; identity := identity this;
         mqtt := mqtt this; rabbitmq := rabbitmq this;
         aws := aws this; dynamoDB := dynamoDB this |});;
      return_ b).

(** [b.postgres = true; return b] *)
Definition Postgres (b : loc) : World → Outcome loc :=
  fn (write b (λ this,
      {| Err := Err this; http := http this; otlp := otlp this;
         postgres := true; identity := identity this;
         mqtt := mqtt this; rabbitmq := rabbitmq this;
         aws := aws this; dynamoDB := dynamoDB this |});;
      return_ b).

(** [b.identity = true; return b] *)
Definition Identity (b : loc) : World → Outcome loc :=
  fn (write b (λ this,
      {| Err := Err this; http := http this; otlp := otlp this;
         postgres := postgres this; identity := true;
         mqtt := mqtt this; rabbitmq := rabbitmq this;
         aws := aws this; dynamoDB := dynamoDB this |});;
      return_ b).

(** [b.mqtt = true; return b] *)
Definition MQTT (b : loc) : World → Outcome loc :=
  fn (write b (λ this,
      {| Err := Err this; http := http this; otlp := otlp this;
         postgres := postgres this; identity := identity this;
         mqtt := true; rabbitmq := rabbitmq this; aws := aws this;
         dynamoDB := dynamoDB this |});;
      return_ b).

(** [b.rabbitmq = true; return b] *)
Definition RabbitMQ (b : loc) : World → Outcome loc :=
  fn (write b (λ this,
      {| Err := Err this; http := http this; otlp := otlp this;
         postgres := postgres this; identity := identity this;
         mqtt := mqtt this; rabbitmq := true; aws := aws this;
         dynamoDB := dynamoDB this |});;
      return_ b).

(** [b.aws = true; return b] *)
Definition AWS (b : loc) : World → Outcome loc :=
  fn (write b (λ this,
      {| Err := Err this; http := http this; otlp := otlp this;
         postgres := postgres this; identity := identity this;
         mqtt := mqtt this; rabbitmq := rabbitmq this; aws := true;
         dynamoDB := dynamoDB this |});;
      return_ b).

(** [b.dynamoDB = true; return b] *)
Definition DynamoDB (b : loc) : World → Outcome loc :=
  fn (write b (λ this,
      {| Err := Err this; http := http this; otlp := otlp this;
         postgres := postgres this; identity := identity this;
         mqtt := mqtt this; rabbitmq := rabbitmq this;
         aws := aws this; dynamoDB := true |});;
      return_ b).

(** [structPtr] for a freshly made instance of a schema: a pointer to a
    struct of that type. *)
Definition pointerTo (s : Schema) : Value := PtrTo (StructV (schemaOf s)).

(** [v.Unmarshal(target)] called from the builder, for a target of schema
    [s] holding [inst]: what the target holds afterwards and the error. *)
Definition unmarshalInto {R} (v : Viper) (s : Schema) (inst : Instance)
  : Proc R (Instance * option error) :=
  let r := Unmarshal v (schemaOf s) inst in
  emit (EvUnmarshal s r.2);; mret r.

Definition setupViper (c : loc) : World → Outcome (option Viper * option error) :=
  fn (
    let env := EnvFile (Getenv "GO_ENV") in
    let v := New in
    let v := SetConfigFile v env in
    let v := SetConfigType v "env" in
    let v := AutomaticEnv v in
    let '(v, err) := ReadInConfig v in
    emit (EvReadInConfig env err);;
    match err with
    | Some err => return_ (None, Some err)
    | None => return_ (Some v, None)
    end).

Definition newConfigs (b : loc) : World → Outcome (option Configs * option error) :=
  fn (
    '(v, err) ← call (setupViper b);
    match err with
    | Some err => return_ (None, Some err)
    | None =>
        v ← deref v;
        let appConfigs := new_instance (schemaOf AppSchema) in
        let v := loadStructDefaults v (pointerTo AppSchema) in
        '(appConfigs, err) ← unmarshalInto v AppSchema appConfigs;
        match err with
        | Some err => return_ (None, Some err)
        | None =>
            let otlpConfigs := new_instance (schemaOf OTLPSchema) in
            let v := loadStructDefaults v (pointerTo OTLPSchema) in
            '(otlpConfigs, err) ← unmarshalInto v OTLPSchema otlpConfigs;
            match err with
            | Some err => return_ (None, Some err)
            | None =>
                return_ (Some {| AppConfigs := Some appConfigs;
                                 OTLPConfigs := Some otlpConfigs;
                                 HTTPConfigs := None; PostgresConfigs := None;
                                 IdentityConfigs := None; MQTTConfigs := None;
                                 RabbitMQConfigs := None; AWSConfigs := None;
                                 DynamoDBConfigs := None; Logger := None;
                                 Custom := v |}, None)
            end
        end
    end).

(** [setupObservability] writes [cfgs.Logger] through the pointer it is
    given; the bundle behind the pointer is returned next to the error. *)
Definition setupObservability (b : loc) (cfgs : Configs)
  : World → Outcome (Configs * option error) :=
  fn (
    b_otlp ← read b otlp;
    if b_otlp : bool then
      let r := otlpLogging_Install cfgs in
      emit (EvInstall OtlpLogging (installedErr r));;
      let cfgs := withLogger cfgs (installedLogger r) in
      match installedErr r with
      | Some err =>
          logError (Logger cfgs) "failed to install OTLP logger" err;;
          return_ (cfgs, Some err)
      | None =>
          let err := otlpTracing_Install cfgs in
          emit (EvInstall OtlpTracing err);;
          match err with
          | Some err =>
              logError (Logger cfgs) "failed to install OTLP tracing" err;;
              return_ (cfgs, Some err)
          | None => return_ (cfgs, None)
          end
      end
    else
      let r := noopLogging_Install cfgs in
      emit (EvInstall NoopLogging (installedErr r));;
      let cfgs := withLogger cfgs (installedLogger r) in
      match installedErr r with
      | Some err =>
          logError (Logger cfgs) "failed to install Noop logger" err;;
          return_ (cfgs, Some err)
      | None => return_ (cfgs, None)
      end).

Definition Build (b : loc) : World → Outcome (option Configs * option error) :=
  fn (
    '(cfgs, err) ← call (newConfigs b);
    match err with
    | Some err => return_ (None, Some err)
    | None =>
    cfgs ← deref cfgs;
    '(cfgs, err) ← call (setupObservability b cfgs);
    match err with
    | Some err => return_ (None, Some err)
    | None =>
    b_http ← read b http;
    cfgs ← (if b_http : bool then
              let cfgs := withHTTPConfigs cfgs
                (Some (new_instance (schemaOf HTTPSchema))) in
              let cfgs := withCustom cfgs
                (loadStructDefaults (Custom cfgs) (pointerTo HTTPSchema)) in
              '(inst, err) ← unmarshalInto (Custom cfgs) HTTPSchema
                                (new_instance (schemaOf HTTPSchema));
              let cfgs := withHTTPConfigs cfgs (Some inst) in
              match err with
              | Some err =>
                  logError (Logger cfgs) "failed to unmarshal HTTP configs" err;;
                  return_ (None, Some err)
              | None => mret cfgs
              end
            else mret cfgs);
    b_postgres ← read b postgres;
    cfgs ← (if b_postgres : bool then
              let cfgs := withPostgresConfigs cfgs
                (Some (new_instance (schemaOf PostgresSchema))) in
              let cfgs := withCustom cfgs
                (loadStructDefaults (Custom cfgs) (pointerTo PostgresSchema)) in
              '(inst, err) ← unmarshalInto (Custom cfgs) PostgresSchema
                                (new_instance (schemaOf PostgresSchema));
              let cfgs := withPostgresConfigs cfgs (Some inst) in
              match err with
              | Some err =>
                  logError (Logger cfgs) "failed to unmarshal Postgres configs" err;;
                  return_ (None, Some err)
              | None => mret cfgs
              end
            else mret cfgs);
    b_identity ← read b identity;
    cfgs ← (if b_identity : bool then
              let cfgs := withIdentityConfigs cfgs
                (Some (new_instance (schemaOf IdentitySchema))) in
              let cfgs := withCustom cfgs
                (loadStructDefaults (Custom cfgs) (pointerTo IdentitySchema)) in
              '(inst, err) ← unmarshalInto (Custom cfgs) IdentitySchema
                                (new_instance (schemaOf IdentitySchema));
              let cfgs := withIdentityConfigs cfgs (Some inst) in
              match err with
              | Some err =>
                  logError (Logger cfgs) "failed to unmarshal Identity configs" err;;
                  return_ (None, Some err)
              | None => mret cfgs
              end
            else mret cfgs);
    b_mqtt ← read b mqtt;
    cfgs ← (if b_mqtt : bool then
              let cfgs := withMQTTConfigs cfgs
                (Some (new_instance (schemaOf MQTTSchema))) in
              let cfgs := withCustom cfgs
                (loadStructDefaults (Custom cfgs) (pointerTo MQTTSchema)) in
              '(inst, err) ← unmarshalInto (Custom cfgs) MQTTSchema
                                (new_instance (schemaOf MQTTSchema));
              let cfgs := withMQTTConfigs cfgs (Some inst) in
              match err with
              | Some err =>
                  logError (Logger cfgs) "failed to unmarshal MQTT configs" err;;
                  return_ (None, Some err)
              | None => mret cfgs
              end
            else mret cfgs);
    b_rabbitmq ← read b rabbitmq;
    cfgs ← (if b_rabbitmq : bool then
              let cfgs := withRabbitMQConfigs cfgs
                (Some (new_instance (schemaOf RabbitMQSchema))) in
              let cfgs := withCustom cfgs
                (loadStructDefaults (Custom cfgs) (pointerTo RabbitMQSchema)) in
              '(inst, err) ← unmarshalInto (Custom cfgs) RabbitMQSchema
                                (new_instance (schemaOf RabbitMQSchema));
              let cfgs := withRabbitMQConfigs cfgs (Some inst) in
              match err with
              | Some err =>
                  logError (Logger cfgs) "failed to unmarshal RabbitMQ configs" err;;
                  return_ (None, Some err)
              | None => mret cfgs
              end
            else mret cfgs);
    b_aws ← read b aws;
    cfgs ← (if b_aws : bool then
              let cfgs := withAWSConfigs cfgs
                (Some (new_instance (schemaOf AWSSchema))) in
              let cfgs := withCustom cfgs
                (loadStructDefaults (Custom cfgs) (pointerTo AWSSchema)) in
              '(inst, err) ← unmarshalInto (Custom cfgs) AWSSchema
                                (new_instance (schemaOf AWSSchema));
              let cfgs := withAWSConfigs cfgs (Some inst) in
              match err with
              | Some err =>
                  logError (Logger cfgs) "failed to unmarshal AWS configs" err;;
                  return_ (None, Some err)
              | None => mret cfgs
              end
            else mret cfgs);
    b_dynamoDB ← read b dynamoDB;
    cfgs ← (if b_dynamoDB : bool then
              let cfgs := withDynamoDBConfigs cfgs
                (Some (new_instance (schemaOf DynamoDBSchema))) in
              let cfgs := withCustom cfgs
                (loadStructDefaults (Custom cfgs) (pointerTo DynamoDBSchema)) in
              '(inst, err) ← unmarshalInto (Custom cfgs) DynamoDBSchema
                                (new_instance (schemaOf DynamoDBSchema));
              let cfgs := withDynamoDBConfigs cfgs (Some inst) in
              match err with
              | Some err =>
                  logError (Logger cfgs) "failed to unmarshal Dynamo configs" err;;
                  return_ (None, Some err)
              | None => mret cfgs
              end
            else mret cfgs);
    return_ (Some cfgs, None)
    end
    end).

End builder.

(** ** Names for what the specification talks about *)

(** The optional domains [Build] loads, one per flag other than [otlp]. *)
Inductive Domain :=
| DomHTTP | DomPostgres | DomIdentity | DomMQTT | DomRabbitMQ | DomAWS | DomDynamoDB.

#[global] Instance Domain_eq_dec : EqDecision Domain.
Proof. solve_decision. Defined.

(** The order the specification gives for them. *)
Definition processingOrder : list Domain :=
  [DomHTTP; DomPostgres; DomIdentity; DomMQTT; DomRabbitMQ; DomAWS; DomDynamoDB].

Definition enabled (this : configsBuilder) (d : Domain) : bool :=
  match d with
  | DomHTTP => http this
  | DomPostgres => postgres this
  | DomIdentity => identity this
  | DomMQTT => mqtt this
  | DomRabbitMQ => rabbitmq this
  | DomAWS => aws this
  | DomDynamoDB => dynamoDB this
  end.

Definition schemaFor (d : Domain) : Schema :=
  match d with
  | DomHTTP => HTTPSchema
  | DomPostgres => PostgresSchema
  | DomIdentity => IdentitySchema
  | DomMQTT => MQTTSchema
  | DomRabbitMQ => RabbitMQSchema
  | DomAWS => AWSSchema
  | DomDynamoDB => DynamoDBSchema
  end.

Definition failureMessage (d : Domain) : string :=
  match d with
  | DomHTTP => "failed to unmarshal HTTP configs"
  | DomPostgres => "failed to unmarshal Postgres configs"
  | DomIdentity => "failed to unmarshal Identity configs"
  | DomMQTT => "failed to unmarshal MQTT configs"
  | DomRabbitMQ => "failed to unmarshal RabbitMQ configs"
  | DomAWS => "failed to unmarshal AWS configs"
  | DomDynamoDB => "failed to unmarshal Dynamo configs"
  end.

(** The eight enablement flags. *)
Inductive Flag :=
| FlagHTTP | FlagOtlp | FlagPostgres | FlagIdentity | FlagMQTT | FlagRabbitMQ
| FlagAWS | FlagDynamoDB.

#[global] Instance Flag_eq_dec : EqDecision Flag.
Proof. solve_decision. Defined.

Definition flag (f : Flag) (this : configsBuilder) : bool :=
  match f with
  | FlagHTTP => http this
  | FlagOtlp => otlp this
  | FlagPostgres => postgres this
  | FlagIdentity => identity this
  | FlagMQTT => mqtt this
  | FlagRabbitMQ => rabbitmq this
  | FlagAWS => aws this
  | FlagDynamoDB => dynamoDB this
  end.

Definition worldOf {R} (o : Outcome R) : World :=
  match o with
  | Returned _ w => w
  | Panicked w => w
  end.

(** The events a run added to the trace. *)
Definition eventsSince (w w' : World) : list Event :=
  drop (length (trace w)) (trace w').

Definition isUnmarshal (ev : Event) : bool :=
  match ev with
  | EvUnmarshal _ _ => true
  | _ => false
  end.

(** The same call, answered with an error. *)
Definition failing (ev : Event) (e : error) : Event :=
  match ev with
  | EvReadInConfig path _ => EvReadInConfig path (Some e)
  | EvUnmarshal target _ => EvUnmarshal target (Some e)
  | EvInstall which _ => EvInstall which (Some e)
  | EvNewDefaultLogger _ => EvNewDefaultLogger (Some e)
  | EvLogError l msg err => EvLogError l msg err
  end.

(** The optional domain a schema belongs to; the base schemas have none. *)
Definition domainOf (s : Schema) : option Domain :=
  match s with
  | AppSchema | OTLPSchema => None
  | HTTPSchema => Some DomHTTP
  | PostgresSchema => Some DomPostgres
  | IdentitySchema => Some DomIdentity
  | MQTTSchema => Some DomMQTT
  | RabbitMQSchema => Some DomRabbitMQ
  | AWSSchema => Some DomAWS
  | DynamoDBSchema => Some DomDynamoDB
  end.

(** The optional domains a run deserialized, in the order it did. *)
Definition touched (ev : Event) : option Domain :=
  match ev with
  | EvUnmarshal target _ => domainOf target
  | _ => None
  end.

Definition domainsTouched (evs : list Event) : list Domain := omap touched evs.

(** The error a call was answered with. *)
Definition failure (ev : Event) : option error :=
  match ev with
  | EvReadInConfig _ err | EvUnmarshal _ err | EvInstall _ err
  | EvNewDefaultLogger err => err
  | EvLogError _ _ _ => None
  end.

(** The message [setupObservability] logs when an installer fails. *)
Definition installMessage (which : Installer) : string :=
  match which with
  | OtlpLogging => "failed to install OTLP logger"
  | OtlpTracing => "failed to install OTLP tracing"
  | NoopLogging => "failed to install Noop logger"
  end.

(** What is logged after a call of the plan failed with [e]: nothing for
    the file and the base schemas, one entry for an installer or an optional
    domain. *)
Definition loggedAfter (ev : Event) (e : error) (logs : list Event) : Prop :=
  match ev with
  | EvReadInConfig _ _ => logs = []
  | EvUnmarshal target _ =>
      if decide (target = AppSchema ∨ target = OTLPSchema) then logs = []
      else ∃ d l, target = schemaFor d ∧ logs = [EvLogError l (failureMessage d) e]
  | EvInstall which _ => ∃ l, logs = [EvLogError l (installMessage which) e]
  | EvNewDefaultLogger _ => logs = []
  | EvLogError _ _ _ => False
  end.

(** A world with more events on its trace. *)
Definition after (w : World) (evs : list Event) : World :=
  {| builders := builders w; trace := (trace w ++ evs)%list |}.

(** The place of a domain in the processing order. *)
Definition position (d : Domain) : nat :=
  match d with
  | DomHTTP => 0 | DomPostgres => 1 | DomIdentity => 2 | DomMQTT => 3
  | DomRabbitMQ => 4 | DomAWS => 5 | DomDynamoDB => 6
  end.

(** ** The earlier variant of [Build]

    The file configs_builder.go keeps the builder as it was before the
    Default Injector: the same struct and enable methods, and a [Build] that
    deserializes straight into the fields of a bundle it holds by value. *)

Module Legacy.

(** What [logging.NewDefaultLogger] hands back behind the [logging.Logger]
    interface: a [*zap.Logger], or another implementation. *)
Inductive DefaultLogger :=
| ZapBacked (l : ZapLogger)
| OtherLogger (l : nat).

Class Collaborators `{Host} := {
  (** what [Unmarshal] answers when its target is a nil pointer of a
      schema type *)
  unmarshalNil : Viper → Schema → option error;
  NewDefaultLogger : Configs → DefaultLogger + error;
}.

Section legacy.
Context `{Collaborators}.

(** [v.Unmarshal(target)] for a target that may be nil: what the target is
    afterwards and the error. *)
Definition unmarshalPtr {R} (v : Viper) (s : Schema) (target : option Instance)
  : Proc R (option Instance * option error) :=
  match target with
  | Some inst => '(inst, err) ← unmarshalInto v s inst; mret (Some inst, err)
  | None =>
      let err := unmarshalNil v s in
      emit (EvUnmarshal s err);; mret (None, err)
  end.

(** [logger.Error(msg, zap.Error(err))] through the interface. *)
Definition logErrorVia {R} (logger : DefaultLogger) (msg : string) (err : error)
  : Proc R unit :=
  match logger with
  | ZapBacked l | OtherLogger l => emit (EvLogError l msg err)
  end.

(** The type assertion of [logger] to [*zap.Logger] panics on another
    implementation. *)
Definition assertZap {R} (logger : DefaultLogger) : Proc R ZapLogger :=
  match logger with
  | ZapBacked l => mret l
  | OtherLogger _ => panic
  end.

Definition Build (b : loc) : World → Outcome (option Configs * option error) :=
  fn (
    let env := EnvFile (Getenv "GO_ENV") in
    let v := New in
    let v := SetConfigFile v env in
    let v := SetConfigType v "env" in
    let v := AutomaticEnv v in
    let '(v, err) := ReadInConfig v in
    emit (EvReadInConfig env err);;
    match err with
    | Some err => return_ (None, Some err)
    | None =>
    let cfgs := {| AppConfigs := None; OTLPConfigs := None; HTTPConfigs := None;
                   PostgresConfigs := None; IdentityConfigs := None;
                   MQTTConfigs := None; RabbitMQConfigs := None;
                   AWSConfigs := None; DynamoDBConfigs := None; Logger := None;
                   Custom := v |} in
    '(target, err) ← unmarshalPtr v AppSchema (AppConfigs cfgs);
    let cfgs := withAppConfigs cfgs target in
    match err with
    | Some err => return_ (None, Some err)
    | None =>
    let r := NewDefaultLogger cfgs in
    emit (EvNewDefaultLogger (match r with inl _ => None | inr err => Some err end));;
    match r with
    | inr err => return_ (None, Some err)
    | inl logger =>
    l ← assertZap logger;
    let cfgs := withLogger cfgs (Some l) in
    b_http ← read b http;
    cfgs ← (if b_http : bool then
              '(target, err) ← unmarshalPtr v HTTPSchema (HTTPConfigs cfgs);
              let cfgs := withHTTPConfigs cfgs target in
              match err with
              | Some err =>
                  logErrorVia logger "failed to unmarshal HTTP configs" err;;
                  return_ (None, Some err)
              | None => mret cfgs
              end
            else mret cfgs);
    b_otlp ← read b otlp;
    cfgs ← (if b_otlp : bool then
              '(target, err) ← unmarshalPtr v OTLPSchema (OTLPConfigs cfgs);
              let cfgs := withOTLPConfigs cfgs target in
              match err with
              | Some err =>
                  logErrorVia logger "failed to unmarshal OTLP configs" err;;
                  return_ (None, Some err)
              | None => mret cfgs
              end
            else mret cfgs);
    b_postgres ← read b postgres;
    cfgs ← (if b_postgres : bool then
              '(target, err) ← unmarshalPtr v PostgresSchema (PostgresConfigs cfgs);
              let cfgs := withPostgresConfigs cfgs target in
              match err with
              | Some err =>
                  logErrorVia logger "failed to unmarshal Postgres configs" err;;
                  return_ (None, Some err)
              | None => mret cfgs
              end
            else mret cfgs);
    b_identity ← read b identity;
    cfgs ← (if b_identity : bool then
              '(target, err) ← unmarshalPtr v IdentitySchema (IdentityConfigs cfgs);
              let cfgs := withIdentityConfigs cfgs target in
              match err with
              | Some err =>
                  logErrorVia logger "failed to unmarshal Identity configs" err;;
                  return_ (None, Some err)
              | None => mret cfgs
              end
            else mret cfgs);
    b_mqtt ← read b mqtt;
    cfgs ← (if b_mqtt : bool then
              '(target, err) ← unmarshalPtr v MQTTSchema (MQTTConfigs cfgs);
              let cfgs := withMQTTConfigs cfgs target in
              match err with
              | Some err =>
                  logErrorVia logger "failed to unmarshal MQTT configs" err;;
                  return_ (None, Some err)
              | None => mret cfgs
              end
            else mret cfgs);
    b_rabbitmq ← read b rabbitmq;
    cfgs ← (if b_rabbitmq : bool then
              '(target, err) ← unmarshalPtr v RabbitMQSchema (RabbitMQConfigs cfgs);
              let cfgs := withRabbitMQConfigs cfgs target in
              match err with
              | Some err =>
                  logErrorVia logger "failed to unmarshal RabbitMQ configs" err;;
                  return_ (None, Some err)
              | None => mret cfgs
              end
            else mret cfgs);
    b_aws ← read b aws;
    cfgs ← (if b_aws : bool then
              '(target, err) ← unmarshalPtr v AWSSchema (AWSConfigs cfgs);
              let cfgs := withAWSConfigs cfgs target in
              match err with
              | Some err =>
                  logErrorVia logger "failed to unmarshal AWS configs" err;;
                  return_ (None, Some err)
              | None => mret cfgs
              end
            else mret cfgs);
    b_dynamoDB ← read b dynamoDB;
    cfgs ← (if b_dynamoDB : bool then
              '(target, err) ← unmarshalPtr v DynamoDBSchema (DynamoDBConfigs cfgs);
              let cfgs := withDynamoDBConfigs cfgs target in
              match err with
              | Some err =>
                  logErrorVia logger "failed to unmarshal Dynamo configs" err;;
                  return_ (None, Some err)
              | None => mret cfgs
              end
            else mret cfgs);
    return_ (Some cfgs, None)
    end
    end
    end).

(** The flags in the order this [Build] goes through them, and what each
    stands for. *)
Definition order : list Flag :=
  [FlagHTTP; FlagOtlp; FlagPostgres; FlagIdentity; FlagMQTT; FlagRabbitMQ;
   FlagAWS; FlagDynamoDB].

Definition schemaOfFlag (f : Flag) : Schema :=
  match f with
  | FlagHTTP => HTTPSchema
  | FlagOtlp => OTLPSchema
  | FlagPostgres => PostgresSchema
  | FlagIdentity => IdentitySchema
  | FlagMQTT => MQTTSchema
  | FlagRabbitMQ => RabbitMQSchema
  | FlagAWS => AWSSchema
  | FlagDynamoDB => DynamoDBSchema
  end.

Definition target (f : Flag) (cfgs : Configs) : option Instance :=
  match f with
  | FlagHTTP => HTTPConfigs cfgs
  | FlagOtlp => OTLPConfigs cfgs
  | FlagPostgres => PostgresConfigs cfgs
  | FlagIdentity => IdentityConfigs cfgs
  | FlagMQTT => MQTTConfigs cfgs
  | FlagRabbitMQ => RabbitMQConfigs cfgs
  | FlagAWS => AWSConfigs cfgs
  | FlagDynamoDB => DynamoDBConfigs cfgs
  end.

Definition withTarget (f : Flag) (cfgs : Configs) (x : option Instance) : Configs :=
  match f with
  | FlagHTTP => withHTTPConfigs cfgs x
  | FlagOtlp => withOTLPConfigs cfgs x
  | FlagPostgres => withPostgresConfigs cfgs x
  | FlagIdentity => withIdentityConfigs cfgs x
  | FlagMQTT => withMQTTConfigs cfgs x
  | FlagRabbitMQ => withRabbitMQConfigs cfgs x
  | FlagAWS => withAWSConfigs cfgs x
  | FlagDynamoDB => withDynamoDBConfigs cfgs x
  end.

Definition message (f : Flag) : string :=
  match f with
  | FlagHTTP => "failed to unmarshal HTTP configs"
  | FlagOtlp => "failed to unmarshal OTLP configs"
  | FlagPostgres => "failed to unmarshal Postgres configs"
  | FlagIdentity => "failed to unmarshal Identity configs"
  | FlagMQTT => "failed to unmarshal MQTT configs"
  | FlagRabbitMQ => "failed to unmarshal RabbitMQ configs"
  | FlagAWS => "failed to unmarshal AWS configs"
  | FlagDynamoDB => "failed to unmarshal Dynamo configs"
  end.

(** The block of this [Build] for one flag, and the blocks for a list of
    flags, each followed by the rest of the body. *)
Definition loadThen {A} (f : Flag) (b : loc) (logger : DefaultLogger)
    (v : Viper) (cfgs : Configs)
    (rest : Configs → Proc (option Configs * option error) A)
  : Proc (option Configs * option error) A :=
  b_flag ← read b (flag f);
  cfgs ← (if b_flag : bool then
            '(target, err) ← unmarshalPtr v (schemaOfFlag f) (target f cfgs);
            let cfgs := withTarget f cfgs target in
            match err with
            | Some err =>
                logErrorVia logger (message f) err;;
                return_ (None, Some err)
            | None => mret cfgs
            end
          else mret cfgs);
  rest cfgs.

Fixpoint loadAllThen {A} (fs : list Flag) (b : loc) (logger : DefaultLogger)
    (v : Viper) (rest : Configs → Proc (option Configs * option error) A)
    (cfgs : Configs) : Proc (option Configs * option error) A :=
  match fs with
  | [] => rest cfgs
  | f :: fs' => loadThen f b logger v cfgs (loadAllThen fs' b logger v rest)
  end.

(** The calls of this [Build] when nothing fails. *)
Definition basePlan : list Event :=
  [EvReadInConfig (EnvFile (Getenv "GO_ENV")) None;
   EvUnmarshal AppSchema None; EvNewDefaultLogger None].

Definition flagPlan (this : configsBuilder) (fs : list Flag) : list Event :=
  (λ f, EvUnmarshal (schemaOfFlag f) None) <$> filter (λ f, flag f this = true) fs.

Definition plan (this : configsBuilder) : list Event :=
  basePlan ++ flagPlan this order.

(** How a call of this [Build] can end: with a bundle after the whole
    plan; with the error of the first call that fails, logged once the
    logger is there; or in a panic, when the default logger is not a
    [*zap.Logger]. *)
Inductive Run (this : configsBuilder) (w : World)
  : Outcome (option Configs * option error) → Prop :=
| Built (cfgs : Configs) :
    Run this w (Returned (Some cfgs, None) (after w (plan this)))
| Aborted (n : nat) (ev : Event) (e : error) (logs : list Event) :
    plan this !! n = Some ev →
    logs = [] ∨ (∃ l msg, logs = [EvLogError l msg e]) →
    Run this w
      (Returned (None, Some e) (after w (take n (plan this) ++ failing ev e :: logs)))
| Crashed :
    Run this w (Panicked (after w basePlan)).

End legacy.
End Legacy.

Section names.
Context `{Observability} `{!Legacy.Collaborators}.

(** The optional field of the bundle a domain is attached to. *)
Definition attached (d : Domain) (cfgs : Configs) : option Instance :=
  match d with
  | DomHTTP => HTTPConfigs cfgs
  | DomPostgres => PostgresConfigs cfgs
  | DomIdentity => IdentityConfigs cfgs
  | DomMQTT => MQTTConfigs cfgs
  | DomRabbitMQ => RabbitMQConfigs cfgs
  | DomAWS => AWSConfigs cfgs
  | DomDynamoDB => DynamoDBConfigs cfgs
  end.

Definition attach (d : Domain) (cfgs : Configs) (x : option Instance) : Configs :=
  match d with
  | DomHTTP => withHTTPConfigs cfgs x
  | DomPostgres => withPostgresConfigs cfgs x
  | DomIdentity => withIdentityConfigs cfgs x
  | DomMQTT => withMQTTConfigs cfgs x
  | DomRabbitMQ => withRabbitMQConfigs cfgs x
  | DomAWS => withAWSConfigs cfgs x
  | DomDynamoDB => withDynamoDBConfigs cfgs x
  end.

(** The enable method of a flag. *)
Definition enable (f : Flag) : loc → World → Outcome loc :=
  match f with
  | FlagHTTP => HTTP
  | FlagOtlp => Otlp
  | FlagPostgres => Postgres
  | FlagIdentity => Identity
  | FlagMQTT => MQTT
  | FlagRabbitMQ => RabbitMQ
  | FlagAWS => AWS
  | FlagDynamoDB => DynamoDB
  end.

(** The operations of the package, and programs made of them. *)
Inductive Op :=
| OpNew
| OpEnable (f : Flag) (b : loc)
| OpBuild (b : loc)
| OpLegacyBuild (b : loc).

Definition runOp (w : World) (op : Op) : World :=
  match op with
  | OpNew => worldOf (NewConfigsBuilder w)
  | OpEnable f b => worldOf (enable f b w)
  | OpBuild b => worldOf (Build b w)
  | OpLegacyBuild b => worldOf (Legacy.Build b w)
  end.

Definition runOps (ops : list Op) (w : World) : World := foldl runOp w ops.

(** The calls of a [Build] in which nothing fails: the file is read, the
    base application and observability schemas are deserialized, logging
    (and tracing, under [otlp]) is installed, then the enabled domains are
    deserialized in the processing order. *)
Definition basePlan : list Event :=
  [EvReadInConfig (EnvFile (Getenv "GO_ENV")) None;
   EvUnmarshal AppSchema None; EvUnmarshal OTLPSchema None].

Definition installPlan (this : configsBuilder) : list Event :=
  if otlp this
  then [EvInstall OtlpLogging None; EvInstall OtlpTracing None]
  else [EvInstall NoopLogging None].

Definition domainPlan (this : configsBuilder) (ds : list Domain) : list Event :=
  (λ d, EvUnmarshal (schemaFor d) None) <$> filter (λ d, enabled this d = true) ds.

Definition plan (this : configsBuilder) : list Event :=
  (basePlan ++ installPlan this ++ domainPlan this processingOrder)%list.

(** The block of [Build] for one optional domain, and the blocks for a
    list of domains, each followed by the rest of the body. *)
Definition loadDomainThen {A} (d : Domain) (b : loc) (cfgs : Configs)
    (rest : Configs → Proc (option Configs * option error) A)
  : Proc (option Configs * option error) A :=
  b_flag ← read b (λ this, enabled this d);
  cfgs ← (if b_flag : bool then
            let cfgs := attach d cfgs (Some (new_instance (schemaOf (schemaFor d)))) in
            let cfgs := withCustom cfgs
              (loadStructDefaults (Custom cfgs) (pointerTo (schemaFor d))) in
            '(inst, err) ← unmarshalInto (Custom cfgs) (schemaFor d)
                              (new_instance (schemaOf (schemaFor d)));
            let cfgs := attach d cfgs (Some inst) in
            match err with
            | Some err =>
                logError (Logger cfgs) (failureMessage d) err;;
                return_ (None, Some err)
            | None => mret cfgs
            end
          else mret cfgs);
  rest cfgs.

Fixpoint loadDomainsThen {A} (ds : list Domain) (b : loc)
    (rest : Configs → Proc (option Configs * option error) A) (cfgs : Configs)
  : Proc (option Configs * option error) A :=
  match ds with
  | [] => rest cfgs
  | d :: ds' => loadDomainThen d b cfgs (loadDomainsThen ds' b rest)
  end.

(** How a call of [Build] on a builder in state [this] can end, told
    against the plan: with a bundle after the whole plan; with the error of
    the first call of the plan that fails, and what was logged about it;
    or in a panic, when a logger installer fails handing back no logger. *)
Inductive BuildRun (this : configsBuilder) (w : World)
  : Outcome (option Configs * option error) → Prop :=
| Built (cfgs : Configs) :
    is_Some (AppConfigs cfgs) → is_Some (OTLPConfigs cfgs) →
    is_Some (Logger cfgs) →
    (∀ d, enabled this d = true → is_Some (attached d cfgs)) →
    (∀ d, enabled this d = false → attached d cfgs = None) →
    BuildRun this w (Returned (Some cfgs, None) (after w (plan this)))
| Aborted (n : nat) (ev : Event) (e : error) (logs : list Event) :
    plan this !! n = Some ev → loggedAfter ev e logs →
    BuildRun this w
      (Returned (None, Some e)
         (after w (take n (plan this) ++ failing ev e :: logs)%list))
| Crashed (n : nat) (which : Installer) (e : error) (cfgs : Configs) :
    plan this !! n = Some (EvInstall which None) →
    (which = OtlpLogging ∧ otlpLogging_Install cfgs = Failed None e)
    ∨ (which = NoopLogging ∧ noopLogging_Install cfgs = Failed None e) →
    BuildRun this w
      (Panicked (after w (take n (plan this) ++ [EvInstall which (Some e)])%list)).

(** The bundle after the block of a domain went through. *)
Definition loaded (d : Domain) (cfgs : Configs) : Configs :=
  let v := loadStructDefaults (Custom cfgs) (pointerTo (schemaFor d)) in
  let inst := new_instance (schemaOf (schemaFor d)) in
  attach d (withCustom (attach d cfgs (Some inst)) v)
    (Some (Unmarshal v (schemaOf (schemaFor d)) inst).1).

(** The error the deserialization of a domain runs into, if any. *)
Definition loadError (d : Domain) (cfgs : Configs) : option error :=
  let v := loadStructDefaults (Custom cfgs) (pointerTo (schemaFor d)) in
  (Unmarshal v (schemaOf (schemaFor d)) (new_instance (schemaOf (schemaFor d)))).2.

End names.


(** ** Further names, for the properties of the code beyond the claims *)

(** [b.flag = true] on the record of a builder. *)
Definition setFlag (f : Flag) (this : configsBuilder) : configsBuilder :=
  {| Err := Err this;
     http := if decide (f = FlagHTTP) then true else http this;
     otlp := if decide (f = FlagOtlp) then true else otlp this;
     postgres := if decide (f = FlagPostgres) then true else postgres this;
     identity := if decide (f = FlagIdentity) then true else identity this;
     mqtt := if decide (f = FlagMQTT) then true else mqtt this;
     rabbitmq := if decide (f = FlagRabbitMQ) then true else rabbitmq this;
     aws := if decide (f = FlagAWS) then true else aws this;
     dynamoDB := if decide (f = FlagDynamoDB) then true else dynamoDB this |}.

(** The chained calls [b.f1().f2()...] as a program. *)
Definition chained (fs : list Flag) (b : loc) : list Op :=
  (λ f, OpEnable f b) <$> fs.

(** What a call returned, if it returned. *)
Definition returned {R} (o : Outcome R) : option R :=
  match o with
  | Returned r _ => Some r
  | Panicked _ => None
  end.

(** The flag that enables a domain. *)
Definition domainFlag (d : Domain) : Flag :=
  match d with
  | DomHTTP => FlagHTTP
  | DomPostgres => FlagPostgres
  | DomIdentity => FlagIdentity
  | DomMQTT => FlagMQTT
  | DomRabbitMQ => FlagRabbitMQ
  | DomAWS => FlagAWS
  | DomDynamoDB => FlagDynamoDB
  end.

Definition isLog (ev : Event) : bool :=
  match ev with
  | EvLogError _ _ _ => true
  | _ => false
  end.

Section more_names.
Context `{Host}.

(** The store [setupViper] hands out once the file is read. *)
Definition storeOf (entries : gmap string string) : Viper :=
  {| configFile := EnvFile (Getenv "GO_ENV"); configType := "env";
     automaticEnvApplied := true; config := entries; defaults := ∅ |}.

(** The Default Injector run for a list of schemas, one after the other. *)
Definition injectAll (v : Viper) (ss : list Schema) : Viper :=
  foldl (λ v s, loadStructDefaults v (pointerTo s)) v ss.

(** The schemas a [Build] without failure loads, in the order it does. *)
Definition loadedSchemas (this : configsBuilder) : list Schema :=
  [AppSchema; OTLPSchema] ++
  (schemaFor <$> filter (λ d, enabled this d = true) processingOrder).


(** [internal.ReadAWSConfigs], a placeholder: no configuration, no error. *)
Definition ReadAWSConfigs : option Instance * option error := (None, None).

End more_names.

(** ** A concrete host, for examples *)

Module Sample.

Definition lowerChar (c : Ascii.ascii) : Ascii.ascii :=
  let n := Ascii.nat_of_ascii c in
  if bool_decide (65 ≤ n ∧ n ≤ 90)%nat then Ascii.ascii_of_nat (n + 32)%nat else c.

Definition upperChar (c : Ascii.ascii) : Ascii.ascii :=
  let n := Ascii.nat_of_ascii c in
  if bool_decide (97 ≤ n ∧ n ≤ 122)%nat then Ascii.ascii_of_nat (n - 32)%nat else c.

Fixpoint mapChars (f : Ascii.ascii → Ascii.ascii) (s : string) : string :=
  match s with
  | String.EmptyString => String.EmptyString
  | String.String c rest => String.String (f c) (mapChars f rest)
  end.

(** An HTTP schema with a required host and a defaulted port, a Postgres
    schema with a required host, and nothing in the others. *)
Definition hostField : StructField :=
  {| Name := "Host"; Tag := [("mapstructure", "HTTP_HOST")] |}.

Definition portField : StructField :=
  {| Name := "Port"; Tag := [("mapstructure", "HTTP_PORT"); ("default", "8080")] |}.

Definition sqlHostField : StructField :=
  {| Name := "Host"; Tag := [("mapstructure", "SQL_DB_HOST")] |}.

Definition schemas (s : Schema) : StructType :=
  match s with
  | HTTPSchema => [hostField; portField]
  | PostgresSchema => [sqlHostField]
  | _ => []
  end.

(** The file [.env.development] declares [HTTP_HOST=localhost] only. *)
Definition files (path : string) : gmap string string + error :=
  if String.eqb path ".env.development"
  then inl {["http_host" := "localhost"]}
  else inr "open: no such file or directory".

(** A decoder for string fields that insists on a value. *)
Definition required (field : StructField) (text : option string) : string + error :=
  match text with
  | Some x => inl x
  | None => inr ("no value for " +:+ Name field)
  end.

#[local] Instance host : Host :=
  {| ToLower := mapChars lowerChar;
     ToUpper := mapChars upperChar;
     environ := {["GO_ENV" := "development"]};
     EnvFile := λ name, ".env." +:+ name;
     schemaOf := schemas;
     readEnvFile := files;
     FieldValue := string;
     decode := required |}.

(** Installers that succeed. *)
#[local] Instance working : Observability :=
  {| otlpLogging_Install := λ _, Active 1;
     otlpTracing_Install := λ _, None;
     noopLogging_Install := λ _, Active 0 |}.

(** Installers whose loggers fail and hand back the error with a nil
    logger. *)
Definition broken : Observability :=
  {| otlpLogging_Install := λ _, Failed None "otlp: exporter unreachable";
     otlpTracing_Install := λ _, None;
     noopLogging_Install := λ _, Failed None "noop: install failed" |}.

(** The collaborators of the earlier [Build]: a store that refuses nil
    targets and a default logger backed by zap. *)
#[local] Instance legacy : Legacy.Collaborators :=
  {| Legacy.unmarshalNil := λ _ _, Some "result must be addressable (a pointer)";
     Legacy.NewDefaultLogger := λ _, inl (Legacy.ZapBacked 0) |}.

(** Three builders: HTTP only; HTTP and Postgres; Otlp only. *)
Definition httpOnly : configsBuilder :=
  {| Err := None; http := true; otlp := false; postgres := false;
     identity := false; mqtt := false; rabbitmq := false; aws := false;
     dynamoDB := false |}.

Definition httpAndPostgres : configsBuilder :=
  {| Err := None; http := true; otlp := false; postgres := true;
     identity := false; mqtt := false; rabbitmq := false; aws := false;
     dynamoDB := false |}.

Definition otlpOnly : configsBuilder :=
  {| Err := None; http := false; otlp := true; postgres := false;
     identity := false; mqtt := false; rabbitmq := false; aws := false;
     dynamoDB := false |}.

Definition world : World :=
  {| builders := {[1%positive := httpOnly; 2%positive := httpAndPostgres;
                   3%positive := otlpOnly]};
     trace := [] |}.

(** A schema none of whose fields carries both annotations. *)
Definition unannotated : StructType :=
  [ {| Name := "Host"; Tag := [("mapstructure", "HOST")] |};
    {| Name := "Retries"; Tag := [("default", "3")] |};
    {| Name := "Note"; Tag := [("mapstructure", "NOTE"); ("default", "")] |} ].

(** A schema whose two fields share a mapping key. *)
Definition twicePort : StructType :=
  [ {| Name := "Port"; Tag := [("mapstructure", "PORT"); ("default", "1")] |};
    {| Name := "AdminPort"; Tag := [("mapstructure", "PORT"); ("default", "2")] |} ].

Definition emptyWorld : World := {| builders := ∅; trace := [] |}.

End Sample.

(** ** More concrete hosts, for the further properties *)

Module Sample2.

(** A host without [GO_ENV]: the file [.env.] it selects does not exist. *)
Definition lost : Host :=
  {| ToLower := Sample.mapChars Sample.lowerChar;
     ToUpper := Sample.mapChars Sample.upperChar;
     environ := ∅;
     EnvFile := λ name, ".env." +:+ name;
     schemaOf := Sample.schemas;
     readEnvFile := Sample.files;
     FieldValue := string;
     decode := Sample.required |}.

Definition lostInstallers : @Observability lost :=
  {| otlpLogging_Install := λ _, Active 1;
     otlpTracing_Install := λ _, None;
     noopLogging_Install := λ _, Active 0 |}.

Definition lostLegacy : @Legacy.Collaborators lost :=
  {| Legacy.unmarshalNil := λ _ _, None;
     Legacy.NewDefaultLogger := λ _, inl (Legacy.ZapBacked 0) |}.

(** A host whose application schema requires a name nobody provides. *)
Definition nameField : StructField :=
  {| Name := "Name"; Tag := [("mapstructure", "APP_NAME")] |}.

Definition strictSchemas (s : Schema) : StructType :=
  match s with
  | AppSchema => [nameField]
  | _ => Sample.schemas s
  end.

Definition strict : Host :=
  {| ToLower := Sample.mapChars Sample.lowerChar;
     ToUpper := Sample.mapChars Sample.upperChar;
     environ := {["GO_ENV" := "development"]};
     EnvFile := λ name, ".env." +:+ name;
     schemaOf := strictSchemas;
     readEnvFile := Sample.files;
     FieldValue := string;
     decode := Sample.required |}.

Definition strictInstallers : @Observability strict :=
  {| otlpLogging_Install := λ _, Active 1;
     otlpTracing_Install := λ _, None;
     noopLogging_Install := λ _, Active 0 |}.

(** Installers whose tracer fails once the logger is there. *)
Definition untraced : @Observability Sample.host :=
  {| otlpLogging_Install := λ _, Active 1;
     otlpTracing_Install := λ _, Some "tracer: collector unreachable";
     noopLogging_Install := λ _, Active 0 |}.



(** The HTTP schema with its fields the other way round, and a schema
    that reads the port without declaring a default. *)
Definition swapped : StructType := [Sample.portField; Sample.hostField].

Definition barePort : StructField :=
  {| Name := "Port"; Tag := [("mapstructure", "http_port")] |}.

(** A world whose only builder has HTTP enabled and a non-nil [Err]. *)
Definition marked : configsBuilder :=
  {| Err := Some "left over"; http := true; otlp := false; postgres := false;
     identity := false; mqtt := false; rabbitmq := false; aws := false;
     dynamoDB := false |}.

Definition elsewhere : World :=
  {| builders := {[5%positive := marked]};
     trace := [EvLogError 0 "earlier" "noise"] |}.

End Sample2.

(** * Properties *)

(** ** The Default Injector *)

Section injector_facts.
Context `{Host}.

Lemma Viper_eq (v1 v2 : Viper) :
  configFile v1 = configFile v2 → configType v1 = configType v2 →
  automaticEnvApplied v1 = automaticEnvApplied v2 →
  config v1 = config v2 → defaults v1 = defaults v2 → v1 = v2.
Proof. destruct v1, v2; simpl; intros; by subst. Qed.

Lemma registrations_cons (field : StructField) (typ : StructType) :
  registrations (field :: typ) =
  match declaresBoth field with
  | Some kd => kd :: registrations typ
  | None => registrations typ
  end.
Proof. unfold registrations; simpl. by destruct (declaresBoth field). Qed.

(** One turn of the loop, seen from the tags of the field. *)
Lemma loop_step (typ : StructType) (n i : nat) (v : Viper) (field : StructField) :
  typ !! i = Some field →
  loadStructDefaults_loop typ (S n) i v =
  loadStructDefaults_loop typ n (S i)
    (match declaresBoth field with Some kd => register v kd | None => v end).
Proof.
  intros Hi. simpl. rewrite Hi. unfold declaresBoth.
  destruct (Lookup (Tag field) "default") as [d [|]] eqn:Hd;
    destruct (Lookup (Tag field) "mapstructure") as [k [|]] eqn:Hk; simpl;
    destruct (String.eqb d ""), (String.eqb k ""); simpl; reflexivity.
Qed.

Lemma loop_registers (typ : StructType) (n i : nat) (v : Viper) :
  loadStructDefaults_loop typ n i v =
  foldl register v (registrations (take n (drop i typ))).
Proof.
  revert i v. induction n as [|n IH]; intros i v; [done|].
  destruct (typ !! i) as [field|] eqn:Hi.
  - rewrite (loop_step _ _ _ _ _ Hi), IH.
    rewrite (drop_S _ _ _ Hi). cbn [take firstn]. rewrite registrations_cons.
    by destruct (declaresBoth field).
  - simpl. rewrite Hi. apply lookup_ge_None in Hi.
    by rewrite drop_ge.
Qed.

Lemma loadStructDefaults_pointer (v : Viper) (typ : StructType) :
  loadStructDefaults v (PtrTo (StructV typ)) = foldl register v (registrations typ).
Proof.
  unfold loadStructDefaults, NumField. simpl.
  rewrite loop_registers, drop_0. by rewrite firstn_all.
Qed.

Lemma loadStructDefaults_value (v : Viper) (typ : StructType) :
  loadStructDefaults v (StructV typ) = foldl register v (registrations typ).
Proof.
  unfold loadStructDefaults, NumField. simpl.
  rewrite loop_registers, drop_0. by rewrite firstn_all.
Qed.

Lemma loadStructDefaults_other (v : Viper) (x : Value) :
  (∀ typ, x ≠ StructV typ) → (∀ typ, x ≠ PtrTo (StructV typ)) →
  loadStructDefaults v x = v.
Proof.
  intros Hs Hp. unfold loadStructDefaults.
  destruct x as [|p|typ| |[|p|typ| |y]]; simpl; try done.
  - by destruct p.
  - by destruct (Hs typ).
  - by destruct p.
  - by destruct (Hp typ).
Qed.

(** Registering touches the defaults only. *)
Lemma foldl_register_frame (regs : list (string * string)) (v : Viper) :
  configFile (foldl register v regs) = configFile v
  ∧ configType (foldl register v regs) = configType v
  ∧ automaticEnvApplied (foldl register v regs) = automaticEnvApplied v
  ∧ config (foldl register v regs) = config v.
Proof.
  revert v. induction regs as [|kd regs IH]; intros v; [done|].
  simpl. destruct (IH (register v kd)) as (-> & -> & -> & ->). done.
Qed.

Lemma foldl_register_defaults (regs : list (string * string)) (v : Viper)
    (key : string) :
  defaults (foldl register v regs) !! key =
  match lastDefault regs key with
  | Some d => Some d
  | None => defaults v !! key
  end.
Proof.
  revert v. induction regs as [|[k d] regs IH]; intros v; [done|].
  simpl. rewrite IH. destruct (lastDefault regs key); [done|].
  simpl. case_decide as Hk.
  - subst key. by rewrite lookup_insert_eq.
  - by rewrite lookup_insert_ne.
Qed.

Lemma foldl_register_twice (regs : list (string * string)) (v : Viper) :
  foldl register (foldl register v regs) regs = foldl register v regs.
Proof.
  destruct (foldl_register_frame regs (foldl register v regs)) as (?&?&?&?).
  apply Viper_eq; try done.
  apply map_eq; intros key. rewrite !foldl_register_defaults.
  by destruct (lastDefault regs key).
Qed.

Lemma explicit_foldl_register (regs : list (string * string)) (v : Viper)
    (key : string) :
  explicit (foldl register v regs) key = explicit v key.
Proof.
  destruct (foldl_register_frame regs v) as (_ & _ & Ha & Hc).
  unfold explicit. by rewrite Ha, Hc.
Qed.

Lemma elem_of_registrations (typ : StructType) (k d : string) :
  (k, d) ∈ registrations typ ↔
  ∃ field, field ∈ typ
    ∧ Lookup (Tag field) "mapstructure" = (k, true) ∧ k ≠ ""
    ∧ Lookup (Tag field) "default" = (d, true) ∧ d ≠ "".
Proof.
  unfold registrations. rewrite list_elem_of_omap.
  split; intros (field & Hin & Hf); exists field; (split; [done|]).
  - unfold declaresBoth in Hf.
    destruct (Lookup (Tag field) "mapstructure") as [k' [|]]; [|done].
    destruct (Lookup (Tag field) "default") as [d' [|]]; [|done].
    destruct (String.eqb_spec k' ""), (String.eqb_spec d' ""); simpl in Hf;
      try done.
    by simplify_eq.
  - destruct Hf as (Hk & Hkne & Hd & Hdne). unfold declaresBoth.
    rewrite Hk, Hd.
    destruct (String.eqb_spec k ""), (String.eqb_spec d ""); done.
Qed.

End injector_facts.

Section injector_claims.
Context `{Host}.

Lemma lastDefault_app (l1 l2 : list (string * string)) (key : string) :
  lastDefault (l1 ++ l2)%list key =
  match lastDefault l2 key with
  | Some d => Some d
  | None => lastDefault l1 key
  end.
Proof.
  induction l1 as [|[k d] l1 IH]; simpl.
  - by destruct (lastDefault l2 key).
  - rewrite IH. by destruct (lastDefault l2 key).
Qed.

Lemma registrations_split (typ : StructType) (i : nat) (field : StructField)
    (kd : string * string) :
  typ !! i = Some field → declaresBoth field = Some kd →
  registrations typ =
  (registrations (take i typ) ++ kd :: registrations (drop (S i) typ))%list.
Proof.
  intros Hi Hf. rewrite <-(take_drop_middle typ i field Hi) at 1.
  unfold registrations. rewrite omap_app. simpl. by rewrite Hf.
Qed.

Lemma declaresBoth_mappingKey (field : StructField) (k d : string) :
  declaresBoth field = Some (k, d) → mappingKey field = Some k.
Proof.
  unfold declaresBoth, mappingKey.
  destruct (Lookup (Tag field) "mapstructure") as [k' [|]]; [|done].
  destruct (Lookup (Tag field) "default") as [d' [|]]; [|done].
  destruct (String.eqb k' ""); simpl; [done|].
  destruct (String.eqb d' ""); [done|]. by intros [= -> ->].
Qed.

Lemma decodeFields_lookup (v : Viper) (typ : StructType) (inst : Instance)
    (i : nat) (field : StructField) (slot : option FieldValue) :
  typ !! i = Some field → inst !! i = Some slot →
  (decodeFields v typ inst).1 !! i =
  Some (match decode field (fieldSource v field) with
        | inl x => Some x
        | inr _ => slot
        end).
Proof.
  revert inst i. induction typ as [|f typ IH]; intros inst i Hi Hs; [done|].
  destruct inst as [|s inst]; [done|]. simpl.
  destruct (decodeFields v typ inst) as [rest err] eqn:Hrest.
  destruct i as [|i]; simpl in Hi, Hs.
  - simplify_eq. by destruct (decode field (fieldSource v field)).
  - specialize (IH inst i Hi Hs). rewrite Hrest in IH. simpl in IH.
    by destruct (decode f (fieldSource v f)).
Qed.

(** What the store resolves for a field with both annotations, once its
    schema has been injected. *)
Lemma fieldSource_injected (v : Viper) (typ : StructType) (i : nat)
    (field : StructField) (k d : string) :
  typ !! i = Some field → declaresBoth field = Some (k, d) →
  fieldSource (loadStructDefaults v (PtrTo (StructV typ))) field
  = Some (default (fallback typ i k d) (explicit v (ToLower k))).
Proof.
  intros Hi Hf. unfold fieldSource, Get, find, fallback.
  rewrite (declaresBoth_mappingKey _ _ _ Hf), loadStructDefaults_pointer.
  rewrite explicit_foldl_register.
  destruct (explicit v (ToLower k)) as [x|]; [done|]. simpl.
  rewrite foldl_register_defaults, (registrations_split _ _ _ _ Hi Hf).
  rewrite lastDefault_app. simpl.
  destruct (lastDefault (registrations (drop (S i) typ)) (ToLower k)); [done|].
  by rewrite decide_True.
Qed.

(** C2. Run on a pointer to a struct, [loadStructDefaults] performs one
    [SetDefault(mappingKey, defaultValue)] for each field whose tags carry a
    non-empty [default] and a non-empty [mapstructure] entry, in declaration
    order, and nothing else: fields missing either annotation register
    nothing, each key ends up with the default registered last for it, every
    other key keeps what it had, and the other parts of the store are left
    alone. *)
Theorem injector_registers_annotated_fields (v : Viper) (typ : StructType) :
  loadStructDefaults v (PtrTo (StructV typ)) = foldl register v (registrations typ)
  ∧ (∀ k d : string, (k, d) ∈ registrations typ ↔
       ∃ field, field ∈ typ
         ∧ Lookup (Tag field) "mapstructure" = (k, true) ∧ k ≠ ""
         ∧ Lookup (Tag field) "default" = (d, true) ∧ d ≠ "")
  ∧ (∀ key : string,
       defaults (loadStructDefaults v (PtrTo (StructV typ))) !! key =
       match lastDefault (registrations typ) key with
       | Some d => Some d
       | None => defaults v !! key
       end)
  ∧ config (loadStructDefaults v (PtrTo (StructV typ))) = config v
  ∧ ((∀ field, field ∈ typ →
        (Lookup (Tag field) "mapstructure").2 = false
        ∨ (Lookup (Tag field) "mapstructure").1 = ""
        ∨ (Lookup (Tag field) "default").2 = false
        ∨ (Lookup (Tag field) "default").1 = "") →
      loadStructDefaults v (PtrTo (StructV typ)) = v).
Proof.
  rewrite loadStructDefaults_pointer. split; [done|].
  split; [apply elem_of_registrations|].
  split; [apply foldl_register_defaults|].
  split; [apply foldl_register_frame|].
  intros Hnone. destruct (registrations typ) as [|[k d] regs] eqn:Hregs; [done|].
  assert ((k, d) ∈ registrations typ) as Hin by (rewrite Hregs; left).
  apply elem_of_registrations in Hin
    as (field & Hfield & Hk & Hkne & Hd & Hdne).
  destruct (Hnone field Hfield) as [Hc|[Hc|[Hc|Hc]]];
    rewrite ?Hk, ?Hd in Hc; simpl in Hc; done.
Qed.

(** C6. Running [loadStructDefaults] a second time on the same store and
    the same argument leaves the store as the first run left it. *)
Theorem injector_idempotent (v : Viper) (structPtr : Value) :
  loadStructDefaults (loadStructDefaults v structPtr) structPtr
  = loadStructDefaults v structPtr.
Proof.
  destruct structPtr as [|p|typ| |[|p|typ| |y]];
    try (rewrite !loadStructDefaults_other; done).
  - rewrite !loadStructDefaults_value. apply foldl_register_twice.
  - rewrite !loadStructDefaults_pointer. apply foldl_register_twice.
Qed.

(** C8. On an argument that is neither a struct nor a pointer to a struct
    [loadStructDefaults] returns the store it was given, unchanged. *)
Theorem injector_ignores_non_structs (v : Viper) (x : Value) :
  (∀ typ, x ≠ StructV typ) → (∀ typ, x ≠ PtrTo (StructV typ)) →
  loadStructDefaults v x = v.
Proof. apply loadStructDefaults_other. Qed.

(** C1, as amended. After injection, a field that carries both annotations
    is deserialized from the live-environment value of its key, else from
    the file value, else from the default registered last under that key:
    the default of a later field sharing the key when there is one, the
    field's own default otherwise. *)
Theorem explicit_beats_registered_default (v : Viper) (typ : StructType)
    (i : nat) (field : StructField) (k d : string) :
  typ !! i = Some field → declaresBoth field = Some (k, d) →
  fieldSource (loadStructDefaults v (PtrTo (StructV typ))) field
  = Some (default (fallback typ i k d) (explicit v (ToLower k)))
  ∧ (∀ (inst : Instance) (slot : option FieldValue),
       inst !! i = Some slot →
       (Unmarshal (loadStructDefaults v (PtrTo (StructV typ))) typ inst).1 !! i
       = Some (match decode field
                       (Some (default (fallback typ i k d) (explicit v (ToLower k))))
               with
               | inl x => Some x
               | inr _ => slot
               end))
  ∧ ((∀ (j : nat) (later : StructField) (k' d' : string),
        i < j → typ !! j = Some later → declaresBoth later = Some (k', d') →
        ToLower k' = ToLower k → d' = d) →
     fallback typ i k d = d).
Proof.
  intros Hi Hf. split; [by apply fieldSource_injected|]. split.
  - intros inst slot Hs. unfold Unmarshal.
    rewrite (decodeFields_lookup _ _ _ _ _ _ Hi Hs).
    by rewrite (fieldSource_injected _ _ _ _ _ _ Hi Hf).
  - intros Hlater. unfold fallback.
    destruct (lastDefault _ _) as [d'|] eqn:Hlast; [|done]. simpl.
    assert (∀ regs key x, lastDefault regs key = Some x →
              ∃ k', (k', x) ∈ regs ∧ ToLower k' = key) as Hmem.
    { clear. intros regs key x. induction regs as [|[k0 d0] regs IH]; [done|].
      simpl. destruct (lastDefault regs key) as [y|].
      - intros [= ->]. destruct IH as (k' & ? & ?); [done|].
        exists k'. split; [by right|done].
      - case_decide; [|done]. intros [= ->]. exists k0. split; [left|done]. }
    destruct (Hmem _ _ _ Hlast) as (k' & Hin & Hk').
    unfold registrations in Hin. apply list_elem_of_omap in Hin
      as (later & Hin & Hdecl).
    apply list_elem_of_lookup in Hin as [j Hj].
    rewrite lookup_drop in Hj.
    by apply (Hlater (S i + j) later k' d'); [lia|..].
Qed.

End injector_claims.

(** ** The builder *)

Section builder_facts.
Context `{Observability}.

Ltac run :=
  unfold fn, call, read, write, emit, deref, logError, return_, panic,
    unmarshalInto, mbind, mret, Proc_bind, Proc_ret, bind, pure in *;
  simpl in *.

Lemma after_nil (w : World) : after w [] = w.
Proof. destruct w. unfold after. simpl. by rewrite app_nil_r. Qed.

Lemma after_after (w : World) (evs1 evs2 : list Event) :
  after (after w evs1) evs2 = after w (evs1 ++ evs2)%list.
Proof. unfold after. simpl. by rewrite app_assoc. Qed.

Lemma eventsSince_after (w : World) (evs : list Event) :
  eventsSince w (after w evs) = evs.
Proof. unfold eventsSince, after. simpl. by rewrite drop_app_length. Qed.

Lemma Build_blocks (b : loc) :
  Build b = fn (
    '(cfgs, err) ← call (newConfigs b);
    match err with
    | Some err => return_ (None, Some err)
    | None =>
        cfgs ← deref cfgs;
        '(cfgs, err) ← call (setupObservability b cfgs);
        match err with
        | Some err => return_ (None, Some err)
        | None =>
            loadDomainsThen processingOrder b
              (λ cfgs, return_ (Some cfgs, None)) cfgs
        end
    end).
Proof. reflexivity. Qed.

Lemma attached_attach (d d' : Domain) (cfgs : Configs) (x : option Instance) :
  attached d' (attach d cfgs x) = if decide (d' = d) then x else attached d' cfgs.
Proof. by destruct d, d'. Qed.

Lemma attached_withCustom (d : Domain) (cfgs : Configs) (v : Viper) :
  attached d (withCustom cfgs v) = attached d cfgs.
Proof. by destruct d. Qed.

Lemma attached_loaded (d d' : Domain) (cfgs : Configs) :
  attached d' (loaded d cfgs) =
  if decide (d' = d)
  then Some (Unmarshal (loadStructDefaults (Custom cfgs) (pointerTo (schemaFor d)))
               (schemaOf (schemaFor d)) (new_instance (schemaOf (schemaFor d)))).1
  else attached d' cfgs.
Proof.
  unfold loaded. rewrite attached_attach. case_decide; [done|].
  rewrite attached_withCustom, attached_attach. by rewrite decide_False.
Qed.

Lemma loaded_frame (d : Domain) (cfgs : Configs) :
  Logger (loaded d cfgs) = Logger cfgs
  ∧ AppConfigs (loaded d cfgs) = AppConfigs cfgs
  ∧ OTLPConfigs (loaded d cfgs) = OTLPConfigs cfgs.
Proof. by destruct d. Qed.

(** One block, for a live builder and an installed logger. *)
Lemma loadDomainThen_run {A} (d : Domain) (b : loc) (this : configsBuilder)
    (cfgs : Configs) (l : ZapLogger) (w : World)
    (rest : Configs → Proc (option Configs * option error) A) :
  builders w !! b = Some this → Logger cfgs = Some l →
  loadDomainThen d b cfgs rest w =
  if enabled this d then
    match loadError d cfgs with
    | Some e =>
        Return (None, Some e)
          (after w [EvUnmarshal (schemaFor d) (Some e);
                    EvLogError l (failureMessage d) e])
    | None => rest (loaded d cfgs) (after w [EvUnmarshal (schemaFor d) None])
    end
  else rest cfgs w.
Proof.
  intros Hb Hl. unfold loadDomainThen, loadError, loaded, after. run.
  rewrite Hb. destruct (enabled this d); [|done].
  destruct d; simpl;
    (destruct (Unmarshal _ _ _) as [inst [e|]]; simpl; [|done]);
    rewrite Hl; simpl; by rewrite <-app_assoc.
Qed.

Lemma domainPlan_cons (this : configsBuilder) (d : Domain) (ds : list Domain) :
  domainPlan this (d :: ds) =
  if enabled this d
  then EvUnmarshal (schemaFor d) None :: domainPlan this ds
  else domainPlan this ds.
Proof.
  unfold domainPlan. destruct (enabled this d) eqn:Hd.
  - by rewrite filter_cons_True.
  - rewrite filter_cons_False; [done|]. by rewrite Hd.
Qed.

(** The blocks of a list of domains: either all of them go through, or the
    run ends at the first enabled domain that fails to deserialize. *)
Lemma loadDomainsThen_run {A} (ds : list Domain) (b : loc)
    (this : configsBuilder) (cfgs : Configs) (l : ZapLogger) (w : World)
    (rest : Configs → Proc (option Configs * option error) A) :
  builders w !! b = Some this → Logger cfgs = Some l →
  (∃ cfgs',
     loadDomainsThen ds b rest cfgs w = rest cfgs' (after w (domainPlan this ds))
     ∧ Logger cfgs' = Some l
     ∧ AppConfigs cfgs' = AppConfigs cfgs
     ∧ OTLPConfigs cfgs' = OTLPConfigs cfgs
     ∧ (∀ d, d ∈ ds → enabled this d = true → is_Some (attached d cfgs'))
     ∧ (∀ d, d ∉ ds ∨ enabled this d = false → attached d cfgs' = attached d cfgs))
  ∨ (∃ n d e,
       domainPlan this ds !! n = Some (EvUnmarshal (schemaFor d) None)
       ∧ loadDomainsThen ds b rest cfgs w =
         Return (None, Some e)
           (after w (take n (domainPlan this ds) ++
                     [EvUnmarshal (schemaFor d) (Some e);
                      EvLogError l (failureMessage d) e]))).
Proof.
  revert cfgs w. induction ds as [|d ds IH]; intros cfgs w Hb Hl.
  { left. exists cfgs. simpl. rewrite after_nil. repeat split; try done.
    intros d Hd. by apply not_elem_of_nil in Hd. }
  simpl. rewrite (loadDomainThen_run _ _ _ _ _ _ _ Hb Hl), domainPlan_cons.
  destruct (enabled this d) eqn:Hd.
  - destruct (loadError d cfgs) as [e|] eqn:He.
    { right. exists 0, d, e. done. }
    destruct (loaded_frame d cfgs) as (Hl' & Ha' & Ho').
    destruct (IH (loaded d cfgs) (after w [EvUnmarshal (schemaFor d) None]))
      as [(cfgs' & -> & ? & ? & ? & Hen & Hdis)|(n & d' & e & Hn & ->)];
      [done|congruence|..].
    + left. exists cfgs'. rewrite after_after. simpl.
      repeat split; try congruence.
      * intros d0 [->|Hin]%elem_of_cons Hd0; [|by apply Hen].
        destruct (decide (d ∈ ds)) as [Hin|Hnin]; [by apply Hen|].
        rewrite Hdis by (by left). rewrite attached_loaded, decide_True by done.
        by eexists.
      * intros d0 Hd0. rewrite Hdis.
        -- rewrite attached_loaded, decide_False; [done|].
           intros ->. destruct Hd0 as [Hd0|Hd0]; [|congruence].
           apply Hd0. left.
        -- destruct Hd0 as [Hd0|Hd0]; [left|by right].
           intros Hin. apply Hd0. by right.
    + right. exists (S n), d', e. rewrite after_after. done.
  - destruct (IH cfgs w) as [(cfgs' & -> & ? & ? & ? & Hen & Hdis)|(n & d' & e & Hn & ->)];
      [done|done|..].
    + left. exists cfgs'. repeat split; try done.
      * intros d0 [->|Hin]%elem_of_cons Hd0; [congruence|by apply Hen].
      * intros d0 Hd0. apply Hdis.
        destruct Hd0 as [Hd0|Hd0]; [left|by right].
        intros Hin. apply Hd0. by right.
    + right. by exists n, d', e.
Qed.

Lemma newConfigs_run (b : loc) (w : World) :
  (∃ cfgs,
     newConfigs b w = Returned (Some cfgs, None) (after w basePlan)
     ∧ Logger cfgs = None
     ∧ is_Some (AppConfigs cfgs) ∧ is_Some (OTLPConfigs cfgs)
     ∧ ∀ d, attached d cfgs = None)
  ∨ (∃ n ev e,
       basePlan !! n = Some ev
       ∧ loggedAfter ev e []
       ∧ newConfigs b w =
         Returned (None, Some e) (after w (take n basePlan ++ [failing ev e]))).
Proof.
  unfold newConfigs, setupViper, ReadInConfig, basePlan, after. run.
  destruct (readEnvFile _) as [entries|e]; simpl.
  2: { right. by exists 0, (EvReadInConfig (EnvFile (Getenv "GO_ENV")) None), e. }
  destruct (Unmarshal _ (schemaOf AppSchema) _) as [app [e|]]; simpl.
  { right. exists 1, (EvUnmarshal AppSchema None), e.
    rewrite <-!app_assoc. done. }
  destruct (Unmarshal _ (schemaOf OTLPSchema) _) as [ot [e|]]; simpl.
  { right. exists 2, (EvUnmarshal OTLPSchema None), e.
    rewrite <-!app_assoc. done. }
  left. eexists. rewrite <-!app_assoc. simpl.
  split; [done|]. repeat split; try by eexists. by intros [].
Qed.

Lemma setupObservability_run (b : loc) (this : configsBuilder) (cfgs : Configs)
    (w : World) :
  builders w !! b = Some this →
  (∃ l, setupObservability b cfgs w =
        Returned (withLogger cfgs (Some l), None) (after w (installPlan this)))
  ∨ (∃ n which e l cfgs',
       installPlan this !! n = Some (EvInstall which None)
       ∧ setupObservability b cfgs w =
         Returned (cfgs', Some e)
           (after w (take n (installPlan this) ++
                     [EvInstall which (Some e);
                      EvLogError l (installMessage which) e])))
  ∨ (∃ n which e,
       installPlan this !! n = Some (EvInstall which None)
       ∧ ((which = OtlpLogging ∧ otlpLogging_Install cfgs = Failed None e)
          ∨ (which = NoopLogging ∧ noopLogging_Install cfgs = Failed None e))
       ∧ setupObservability b cfgs w =
         Panicked (after w (take n (installPlan this) ++
                            [EvInstall which (Some e)]))).
Proof.
  intros Hb. unfold setupObservability, installPlan, after. run. rewrite Hb.
  destruct (otlp this).
  - destruct (otlpLogging_Install cfgs) as [l|[l|] e] eqn:Hlog; simpl.
    + destruct (otlpTracing_Install _) as [e|]; simpl.
      * right; left. exists 1, OtlpTracing, e, l. eexists.
        split; [done|]. by rewrite <-!app_assoc.
      * left. exists l. by rewrite <-!app_assoc.
    + right; left. exists 0, OtlpLogging, e, l. eexists.
      split; [done|]. by rewrite <-!app_assoc.
    + right; right. exists 0, OtlpLogging, e. split; [done|]. split; [|done].
      left. done.
  - destruct (noopLogging_Install cfgs) as [l|[l|] e] eqn:Hlog; simpl.
    + left. by exists l.
    + right; left. exists 0, NoopLogging, e, l. eexists.
      split; [done|]. by rewrite <-!app_assoc.
    + right; right. exists 0, NoopLogging, e. split; [done|]. split; [|done].
      right. done.
Qed.

Lemma elem_of_processingOrder (d : Domain) : d ∈ processingOrder.
Proof. unfold processingOrder. destruct d; set_solver. Qed.

Lemma length_installPlan (this : configsBuilder) :
  length (installPlan this) = if otlp this then 2 else 1.
Proof. unfold installPlan. by destruct (otlp this). Qed.

Lemma attached_withLogger (d : Domain) (cfgs : Configs) (l : option ZapLogger) :
  attached d (withLogger cfgs l) = attached d cfgs.
Proof. by destruct d. Qed.

(** Every call of [Build] on a live builder ends in one of the three ways
    of [BuildRun]. *)
Lemma Build_run (b : loc) (this : configsBuilder) (w : World) :
  builders w !! b = Some this → BuildRun this w (Build b w).
Proof.
  intros Hb. rewrite Build_blocks. unfold fn, call, mbind, Proc_bind, bind.
  destruct (newConfigs_run b w)
    as [(cfgs0 & -> & Hl0 & Ha0 & Ho0 & Hd0)|(n & ev & e & Hn & Hlog & ->)].
  2: { unfold return_.
       rewrite <-(take_app_le basePlan (installPlan this ++ domainPlan this processingOrder))
         by (apply lookup_lt_Some in Hn; lia).
       apply Aborted; [|done]. by apply lookup_app_l_Some. }
  cbn -[loadDomainsThen setupObservability]. unfold pure.
  assert (builders (after w basePlan) !! b = Some this) as Hb1 by done.
  destruct (setupObservability_run b this cfgs0 _ Hb1)
    as [(l & ->)|[(n & which & e & l & cfgs' & Hn & ->)|(n & which & e & Hn & Hwhy & ->)]].
  - rewrite after_after.
    assert (builders (after w (basePlan ++ installPlan this)) !! b = Some this)
      as Hb2 by done.
    destruct (loadDomainsThen_run processingOrder b this
                (withLogger cfgs0 (Some l)) l _
                (λ cfgs, return_ (A:=option Configs * option error) (Some cfgs, None)) Hb2 eq_refl)
      as [(cfgs' & -> & Hl & Ha & Ho & Hen & Hdis)|(n & d & e & Hn & ->)].
    + unfold return_. rewrite after_after, <-app_assoc.
      apply Built.
      * by rewrite Ha.
      * by rewrite Ho.
      * by rewrite Hl.
      * intros d Hd. apply Hen; [apply elem_of_processingOrder|done].
      * intros d Hd. rewrite Hdis by (by right).
        by rewrite attached_withLogger.
    + rewrite after_after.
      replace ((basePlan ++ installPlan this) ++
               take n (domainPlan this processingOrder) ++
               [EvUnmarshal (schemaFor d) (Some e);
                EvLogError l (failureMessage d) e])%list
        with (take (length (basePlan ++ installPlan this) + n) (plan this) ++
              failing (EvUnmarshal (schemaFor d) None) e ::
              [EvLogError l (failureMessage d) e])%list.
      2: { unfold plan. rewrite (app_assoc basePlan), take_app_add.
           by rewrite <-!app_assoc. }
      apply Aborted.
      * unfold plan. rewrite (app_assoc basePlan), lookup_app_r by lia.
        by replace (length (basePlan ++ installPlan this) + n
                    - length (basePlan ++ installPlan this)) with n by lia.
      * simpl. rewrite decide_False by (by destruct d; intros [|]).
        by exists d, l.
  - unfold return_. rewrite after_after.
    replace (basePlan ++ take n (installPlan this) ++
             [EvInstall which (Some e); EvLogError l (installMessage which) e])%list
      with (take (length basePlan + n) (plan this) ++
            failing (EvInstall which None) e ::
            [EvLogError l (installMessage which) e])%list.
    2: { unfold plan. rewrite take_app_add, take_app_le
           by (apply lookup_lt_Some in Hn; lia).
         by rewrite <-!app_assoc. }
    apply Aborted; [|by exists l].
    unfold plan. rewrite lookup_app_r by lia.
    replace (length basePlan + n - length basePlan) with n by lia.
    by apply lookup_app_l_Some.
  - rewrite after_after.
    replace (basePlan ++ take n (installPlan this) ++ [EvInstall which (Some e)])%list
      with (take (length basePlan + n) (plan this) ++
            [EvInstall which (Some e)])%list.
    2: { unfold plan. rewrite take_app_add, take_app_le
           by (apply lookup_lt_Some in Hn; lia).
         by rewrite <-!app_assoc. }
    apply (Crashed _ _ _ _ _ cfgs0); [|done].
    unfold plan. rewrite lookup_app_r by lia.
    replace (length basePlan + n - length basePlan) with n by lia.
    by apply lookup_app_l_Some.
Qed.

(** On a pointer to no builder, [Build] still loads the base schemas and
    then panics reading the [otlp] flag. *)
Lemma Build_dangling (b : loc) (w : World) :
  builders w !! b = None → builders (worldOf (Build b w)) = builders w.
Proof.
  intros Hb. rewrite Build_blocks. unfold fn, call, mbind, Proc_bind, bind.
  destruct (newConfigs_run b w)
    as [(cfgs0 & -> & _)|(n & ev & e & _ & _ & ->)]; [|done].
  simpl. unfold pure, setupObservability, fn, read, mbind, Proc_bind, bind.
  simpl. by rewrite Hb.
Qed.

(** *** The order of the calls *)

Lemma plan_succeeds (this : configsBuilder) (ev : Event) :
  ev ∈ plan this → failure ev = None.
Proof.
  revert ev. apply Forall_forall. unfold plan, basePlan, installPlan, domainPlan.
  rewrite !Forall_app. split; [by repeat constructor|]. split.
  - destruct (otlp this); by repeat constructor.
  - apply Forall_fmap, Forall_true. done.
Qed.

Lemma loggedAfter_logs (ev : Event) (e : error) (logs : list Event) :
  loggedAfter ev e logs →
  ∀ x, x ∈ logs → ∃ l msg, x = EvLogError l msg e.
Proof.
  destruct ev as [path err|target err|which err|err|]; simpl; [..|done].
  - intros -> x Hx. by apply not_elem_of_nil in Hx.
  - case_decide.
    + intros -> x Hx. by apply not_elem_of_nil in Hx.
    + intros (d & l & _ & ->) x ->%list_elem_of_singleton. by eexists _, _.
  - intros (l & ->) x ->%list_elem_of_singleton. by eexists _, _.
  - intros -> x Hx. by apply not_elem_of_nil in Hx.
Qed.

Lemma domainsTouched_logs (ev : Event) (e : error) (logs : list Event) :
  loggedAfter ev e logs → domainsTouched logs = [].
Proof.
  intros Hlogs. unfold domainsTouched.
  destruct logs as [|x logs]; [done|].
  destruct ev as [path err|target err|which err|err|]; simpl in Hlogs; [..|done].
  - done.
  - case_decide; [done|]. by destruct Hlogs as (d & l & _ & [= -> ->]).
  - by destruct Hlogs as (l & [= -> ->]).
  - done.
Qed.

Lemma domainOf_schemaFor (d : Domain) : domainOf (schemaFor d) = Some d.
Proof. by destruct d. Qed.

Lemma schemaFor_inj (d d' : Domain) : schemaFor d = schemaFor d' → d = d'.
Proof.
  intros Heq. apply (inj Some).
  by rewrite <-(domainOf_schemaFor d), <-(domainOf_schemaFor d'), Heq.
Qed.

Lemma touched_failing (ev : Event) (e : error) : touched (failing ev e) = touched ev.
Proof. by destruct ev. Qed.

Lemma domainsTouched_unmarshals (ds : list Domain) :
  domainsTouched ((λ d, EvUnmarshal (schemaFor d) None) <$> ds) = ds.
Proof.
  unfold domainsTouched. induction ds as [|d ds IH]; [done|].
  simpl. rewrite domainOf_schemaFor. simpl. f_equal. exact IH.
Qed.

Lemma domainsTouched_domainPlan (this : configsBuilder) (ds : list Domain) :
  domainsTouched (domainPlan this ds) = filter (λ d, enabled this d = true) ds.
Proof. apply domainsTouched_unmarshals. Qed.

Lemma domainsTouched_prelude (this : configsBuilder) (n : nat) :
  domainsTouched (take n (basePlan ++ installPlan this)) = [].
Proof.
  unfold basePlan, installPlan.
  destruct (otlp this); by do 6 (destruct n as [|n]; [done|]).
Qed.

(** The domains deserialized by the first [n] calls of the plan. *)
Lemma domainsTouched_take_plan (this : configsBuilder) (n : nat) :
  domainsTouched (take n (plan this)) =
  take (n - length (basePlan ++ installPlan this))
    (filter (λ d, enabled this d = true) processingOrder).
Proof.
  unfold plan. rewrite (app_assoc basePlan), take_app.
  unfold domainsTouched at 1. rewrite omap_app.
  fold (domainsTouched (take n (basePlan ++ installPlan this))).
  rewrite domainsTouched_prelude. simpl.
  unfold domainPlan. rewrite <-fmap_take.
  apply domainsTouched_unmarshals.
Qed.

Lemma plan_lookup_domain (this : configsBuilder) (n : nat) (d : Domain)
    (err : option error) :
  plan this !! n = Some (EvUnmarshal (schemaFor d) err) →
  (length (basePlan ++ installPlan this) ≤ n)%nat
  ∧ filter (λ d, enabled this d = true) processingOrder
      !! (n - length (basePlan ++ installPlan this)) = Some d.
Proof.
  unfold plan. rewrite (app_assoc basePlan), lookup_app.
  destruct ((basePlan ++ installPlan this) !! n) as [ev|] eqn:Hpre.
  - intros [= ->]. exfalso. revert Hpre. unfold basePlan, installPlan.
    destruct (otlp this);
      do 6 (destruct n as [|n]; [by destruct d|]); done.
  - apply lookup_ge_None in Hpre. split; [done|].
    unfold domainPlan in *. rewrite list_lookup_fmap in *.
    destruct (filter _ _ !! _) as [d'|]; [|done].
    simpl in *. f_equal. apply schemaFor_inj. congruence.
Qed.

Lemma plan_lookup_install (this : configsBuilder) (n : nat) (which : Installer)
    (err : option error) :
  plan this !! n = Some (EvInstall which err) →
  n < length (basePlan ++ installPlan this).
Proof.
  unfold plan. rewrite (app_assoc basePlan), lookup_app.
  destruct ((basePlan ++ installPlan this) !! n) as [ev|] eqn:Hpre.
  - intros _. by apply lookup_lt_Some in Hpre.
  - unfold domainPlan. rewrite list_lookup_fmap.
    by destruct (filter _ _ !! _).
Qed.

Lemma processingOrder_sorted :
  StronglySorted (λ d d', position d < position d') processingOrder.
Proof. unfold processingOrder. repeat constructor; simpl; lia. Qed.

Lemma StronglySorted_filter {A} (R : relation A) (P : A → Prop)
    `{!∀ x, Decision (P x)} (l : list A) :
  StronglySorted R l → StronglySorted R (filter P l).
Proof.
  induction 1 as [|x l Hl IH Hx]; [constructor|].
  destruct (decide (P x)).
  - rewrite filter_cons_True by done. constructor; [done|].
    apply Forall_forall. intros y [_ Hy]%list_elem_of_filter.
    by eapply Forall_forall in Hx.
  - by rewrite filter_cons_False.
Qed.

(** In the list of enabled domains, what comes first comes first in the
    processing order. *)
Lemma enabled_before (this : configsBuilder) (j : nat) (d d' : Domain) :
  filter (λ d, enabled this d = true) processingOrder !! j = Some d →
  d' ∈ take j (filter (λ d, enabled this d = true) processingOrder) →
  position d' < position d.
Proof.
  intros Hj Hin.
  pose proof (StronglySorted_filter _ (λ d, enabled this d = true) _
                processingOrder_sorted) as Hsorted.
  rewrite <-(take_drop j (filter _ processingOrder)) in Hsorted.
  eapply (StronglySorted_app_1_elem_of _ _ _ _ _ Hsorted); [done|].
  rewrite (drop_S _ _ _ Hj). left.
Qed.

End builder_facts.

(** ** The earlier variant of [Build] *)

Section legacy_facts.
Context `{Legacy.Collaborators}.

Lemma Legacy_Build_blocks (b : loc) :
  Legacy.Build b = fn (
    let env := EnvFile (Getenv "GO_ENV") in
    let '(v, err) :=
      ReadInConfig (AutomaticEnv (SetConfigType (SetConfigFile New env) "env")) in
    emit (EvReadInConfig env err);;
    match err with
    | Some err => return_ (None, Some err)
    | None =>
        let cfgs := {| AppConfigs := None; OTLPConfigs := None; HTTPConfigs := None;
                       PostgresConfigs := None; IdentityConfigs := None;
                       MQTTConfigs := None; RabbitMQConfigs := None;
                       AWSConfigs := None; DynamoDBConfigs := None; Logger := None;
                       Custom := v |} in
        '(target, err) ← Legacy.unmarshalPtr v AppSchema (AppConfigs cfgs);
        let cfgs := withAppConfigs cfgs target in
        match err with
        | Some err => return_ (None, Some err)
        | None =>
            let r := Legacy.NewDefaultLogger cfgs in
            emit (EvNewDefaultLogger
                    (match r with inl _ => None | inr err => Some err end));;
            match r with
            | inr err => return_ (None, Some err)
            | inl logger =>
                l ← Legacy.assertZap logger;
                Legacy.loadAllThen Legacy.order b logger v
                  (λ cfgs, return_ (Some cfgs, None))
                  (withLogger cfgs (Some l))
            end
        end
    end).
Proof. reflexivity. Qed.

(** One block of the earlier [Build], for a live builder. *)
Lemma Legacy_loadThen_run {A} (f : Flag) (b : loc) (this : configsBuilder)
    (logger : Legacy.DefaultLogger) (v : Viper) (cfgs : Configs) (w : World)
    (rest : Configs → Proc (option Configs * option error) A) :
  builders w !! b = Some this →
  (flag f this = false ∧ Legacy.loadThen f b logger v cfgs rest w = rest cfgs w)
  ∨ (flag f this = true
     ∧ ∃ cfgs', Legacy.loadThen f b logger v cfgs rest w =
                rest cfgs' (after w [EvUnmarshal (Legacy.schemaOfFlag f) None]))
  ∨ (flag f this = true
     ∧ ∃ e l, Legacy.loadThen f b logger v cfgs rest w =
              Return (None, Some e)
                (after w [EvUnmarshal (Legacy.schemaOfFlag f) (Some e);
                          EvLogError l (Legacy.message f) e])).
Proof.
  intros Hb. unfold Legacy.loadThen, read, mbind, Proc_bind, bind. rewrite Hb.
  destruct (flag f this); [right|by left].
  unfold Legacy.unmarshalPtr, Legacy.logErrorVia, unmarshalInto, emit, return_,
    mbind, mret, Proc_bind, Proc_ret, bind, pure, after.
  destruct (Legacy.target f cfgs) as [inst|]; simpl.
  - destruct (Unmarshal v _ inst) as [inst' [e|]]; simpl.
    + right. split; [done|]. exists e.
      destruct logger as [l|l]; exists l; simpl; by rewrite <-app_assoc.
    + left. split; [done|]. by eexists.
  - destruct (Legacy.unmarshalNil v _) as [e|]; simpl.
    + right. split; [done|]. exists e.
      destruct logger as [l|l]; exists l; simpl; by rewrite <-app_assoc.
    + left. split; [done|]. by eexists.
Qed.

Lemma Legacy_flagPlan_cons (this : configsBuilder) (f : Flag) (fs : list Flag) :
  Legacy.flagPlan this (f :: fs) =
  if flag f this
  then EvUnmarshal (Legacy.schemaOfFlag f) None :: Legacy.flagPlan this fs
  else Legacy.flagPlan this fs.
Proof.
  unfold Legacy.flagPlan. destruct (flag f this) eqn:Hf.
  - by rewrite filter_cons_True.
  - rewrite filter_cons_False; [done|]. by rewrite Hf.
Qed.

Lemma Legacy_loadAllThen_run {A} (fs : list Flag) (b : loc)
    (this : configsBuilder) (logger : Legacy.DefaultLogger) (v : Viper)
    (cfgs : Configs) (w : World)
    (rest : Configs → Proc (option Configs * option error) A) :
  builders w !! b = Some this →
  (∃ cfgs', Legacy.loadAllThen fs b logger v rest cfgs w =
            rest cfgs' (after w (Legacy.flagPlan this fs)))
  ∨ (∃ n f e l,
       Legacy.flagPlan this fs !! n = Some (EvUnmarshal (Legacy.schemaOfFlag f) None)
       ∧ Legacy.loadAllThen fs b logger v rest cfgs w =
         Return (None, Some e)
           (after w (take n (Legacy.flagPlan this fs) ++
                     [EvUnmarshal (Legacy.schemaOfFlag f) (Some e);
                      EvLogError l (Legacy.message f) e]))).
Proof.
  revert cfgs w. induction fs as [|f fs IH]; intros cfgs w Hb.
  { left. exists cfgs. simpl. by rewrite after_nil. }
  cbn [Legacy.loadAllThen]. rewrite Legacy_flagPlan_cons.
  destruct (Legacy_loadThen_run f b this logger v cfgs w
              (Legacy.loadAllThen fs b logger v rest) Hb)
    as [[-> ->]|[[-> (cfgs1 & ->)]|[-> (e & l & ->)]]].
  - by apply IH.
  - destruct (IH cfgs1 (after w [EvUnmarshal (Legacy.schemaOfFlag f) None]))
      as [(cfgs' & ->)|(n & f' & e & l & Hn & ->)]; [done|..].
    + left. exists cfgs'. by rewrite after_after.
    + right. exists (S n), f', e, l. by rewrite after_after.
  - right. by exists 0, f, e, l.
Qed.

Lemma Legacy_Build_run (b : loc) (this : configsBuilder) (w : World) :
  builders w !! b = Some this → Legacy.Run this w (Legacy.Build b w).
Proof.
  intros Hb. rewrite Legacy_Build_blocks.
  unfold fn, ReadInConfig, Legacy.unmarshalPtr, Legacy.assertZap, emit, return_,
    panic, mbind, mret, Proc_bind, Proc_ret, bind, pure.
  cbn -[Legacy.loadAllThen].
  destruct (readEnvFile _) as [entries|e]; cbn -[Legacy.loadAllThen].
  2: { apply (Legacy.Aborted this w 0
              (EvReadInConfig (EnvFile (Getenv "GO_ENV")) None) e []);
         [done|by left]. }
  destruct (Legacy.unmarshalNil _ AppSchema) as [e|]; cbn -[Legacy.loadAllThen].
  { rewrite <-app_assoc.
    apply (Legacy.Aborted this w 1 (EvUnmarshal AppSchema None) e []);
      [done|by left]. }
  destruct (Legacy.NewDefaultLogger _) as [[l|l]|e]; cbn -[Legacy.loadAllThen].
  - match goal with
    | |- context [Legacy.loadAllThen _ _ ?lg ?v ?k ?c ?w0] =>
        destruct (Legacy_loadAllThen_run Legacy.order b this lg v c w0 k Hb)
          as [(cfgs' & ->)|(n & f & e & l' & Hn & ->)]
    end.
    + unfold after. simpl. rewrite <-!app_assoc. apply Legacy.Built.
    + unfold after. simpl. rewrite <-!app_assoc. simpl.
      apply (Legacy.Aborted this w (3 + n) (EvUnmarshal (Legacy.schemaOfFlag f) None)
               e [EvLogError l' (Legacy.message f) e]); [done|].
      right. by eexists _, _.
  - rewrite <-!app_assoc. apply Legacy.Crashed.
  - rewrite <-!app_assoc.
    apply (Legacy.Aborted this w 2 (EvNewDefaultLogger None) e []);
      [done|by left].
Qed.

Lemma Legacy_Build_dangling (b : loc) (w : World) :
  builders w !! b = None → builders (worldOf (Legacy.Build b w)) = builders w.
Proof.
  intros Hb.
  unfold Legacy.Build, fn, ReadInConfig, Legacy.unmarshalPtr, Legacy.assertZap,
    read, emit, return_, panic, mbind, mret, Proc_bind, Proc_ret, bind, pure.
  simpl.
  destruct (readEnvFile _) as [entries|e]; simpl; [|done].
  destruct (Legacy.unmarshalNil _ AppSchema) as [e|]; simpl; [done|].
  destruct (Legacy.NewDefaultLogger _) as [[l|l]|e]; simpl; [|done..].
  by rewrite Hb.
Qed.

Lemma Legacy_Build_builders (b : loc) (w : World) :
  builders (worldOf (Legacy.Build b w)) = builders w.
Proof.
  destruct (builders w !! b) as [this|] eqn:Hb.
  - by destruct (Legacy_Build_run b this w Hb).
  - by apply Legacy_Build_dangling.
Qed.

Lemma Legacy_plan_succeeds (this : configsBuilder) (ev : Event) :
  ev ∈ Legacy.plan this → failure ev = None.
Proof.
  revert ev. apply Forall_forall. unfold Legacy.plan, Legacy.basePlan, Legacy.flagPlan.
  rewrite Forall_app. split; [by repeat constructor|].
  apply Forall_fmap, Forall_true. done.
Qed.

End legacy_facts.

Section builder_claims.
Context `{Observability} `{!Legacy.Collaborators}.

Lemma BuildRun_builders (this : configsBuilder) (w : World)
    (o : Outcome (option Configs * option error)) :
  BuildRun this w o → builders (worldOf o) = builders w.
Proof. by intros []. Qed.

Lemma Build_builders (b : loc) (w : World) :
  builders (worldOf (Build b w)) = builders w.
Proof.
  destruct (builders w !! b) as [this|] eqn:Hb.
  - by apply (BuildRun_builders this), Build_run.
  - by apply Build_dangling.
Qed.

(** What an enable method does to a live builder. *)
Lemma enable_run (f : Flag) (b : loc) (this : configsBuilder) (w : World) :
  builders w !! b = Some this →
  ∃ this',
    enable f b w =
      Returned b {| builders := <[b := this']> (builders w); trace := trace w |}
    ∧ flag f this' = true
    ∧ (∀ g, g ≠ f → flag g this' = flag g this)
    ∧ Err this' = Err this.
Proof.
  intros Hb.
  destruct f; simpl;
    unfold HTTP, Otlp, Postgres, Identity, MQTT, RabbitMQ, AWS, DynamoDB,
      fn, write, return_, mbind, Proc_bind, bind;
    rewrite Hb; eexists; (split; [reflexivity|]); simpl;
    (split; [done|]); (split; [|done]); by intros [].
Qed.

Lemma enable_dangling (f : Flag) (b : loc) (w : World) :
  builders w !! b = None → enable f b w = Panicked w.
Proof.
  intros Hb.
  destruct f; simpl;
    unfold HTTP, Otlp, Postgres, Identity, MQTT, RabbitMQ, AWS, DynamoDB,
      fn, write, return_, mbind, Proc_bind, bind;
    by rewrite Hb.
Qed.

Lemma NewConfigsBuilder_run (w : World) :
  ∃ b, NewConfigsBuilder w =
         Returned b {| builders := <[b := zeroBuilder]> (builders w);
                       trace := trace w |}
       ∧ builders w !! b = None.
Proof.
  exists (fresh (dom (builders w))). split; [done|].
  apply not_elem_of_dom, is_fresh.
Qed.

(** No operation of the package takes a flag back or writes [Err]. *)
Lemma runOp_keeps (op : Op) (b : loc) (this : configsBuilder) (w : World) :
  builders w !! b = Some this →
  ∃ this', builders (runOp w op) !! b = Some this'
    ∧ (∀ g, flag g this = true → flag g this' = true)
    ∧ Err this' = Err this.
Proof.
  intros Hb. destruct op as [|f b'|b'|b']; cbn [runOp].
  - destruct (NewConfigsBuilder_run w) as (b' & -> & Hfresh). simpl.
    exists this. rewrite lookup_insert_ne by congruence. done.
  - destruct (builders w !! b') as [that|] eqn:Hb'.
    + destruct (enable_run f b' that w Hb') as (that' & -> & Hf & Hg & He).
      simpl. destruct (decide (b' = b)) as [->|Hne].
      * rewrite lookup_insert_eq. exists that'. simplify_eq.
        split; [done|]. split; [|done].
        intros g Hgt. destruct (decide (g = f)) as [->|]; [done|].
        by rewrite Hg.
      * rewrite lookup_insert_ne by done. by exists this.
    + rewrite (enable_dangling f b' w Hb'). by exists this.
  - rewrite Build_builders. by exists this.
  - rewrite Legacy_Build_builders. by exists this.
Qed.

Lemma runOps_keeps (ops : list Op) (b : loc) (this : configsBuilder) (w : World) :
  builders w !! b = Some this →
  ∃ this', builders (runOps ops w) !! b = Some this'
    ∧ (∀ g, flag g this = true → flag g this' = true)
    ∧ Err this' = Err this.
Proof.
  revert this w. induction ops as [|op ops IH]; intros this w Hb.
  { by exists this. }
  destruct (runOp_keeps op b this w Hb) as (that & Hthat & Hmono & He).
  destruct (IH that (runOp w op) Hthat) as (this' & ? & Hmono' & He').
  exists this'. split; [done|]. split; [|congruence].
  intros g Hg. by apply Hmono', Hmono.
Qed.

(** C4. When [Build] returns without error it returns a bundle, and in it
    the optional field of a domain is set exactly when the flag of that
    domain is; the base application and observability schemas are always
    there. *)
Theorem Build_populates_enabled_domains (b : loc) (this : configsBuilder)
    (w w' : World) (bundle : option Configs) :
  builders w !! b = Some this →
  Build b w = Returned (bundle, None) w' →
  ∃ cfgs, bundle = Some cfgs
    ∧ (∀ d, is_Some (attached d cfgs) ↔ enabled this d = true)
    ∧ is_Some (AppConfigs cfgs) ∧ is_Some (OTLPConfigs cfgs).
Proof.
  intros Hb Hbuild. pose proof (Build_run b this w Hb) as Hrun.
  rewrite Hbuild in Hrun. inversion Hrun as [cfgs Ha Ho Hl Hen Hdis| |]; subst.
  exists cfgs. repeat split; try done.
  - intros Hsome. destruct (enabled this d) eqn:Hd; [done|].
    rewrite (Hdis d Hd) in Hsome. by destruct Hsome.
  - apply Hen.
Qed.

(** C9. Called on a live builder, each enable method returns the pointer
    it was called on, having set its own flag and nothing else: the other
    flags, [Err], the other builders and the trace are as before, and it
    neither fails nor panics.  Whatever operations of the package follow,
    a flag that is set stays set. *)
Theorem enable_sets_own_flag_only (f : Flag) (b : loc) (this : configsBuilder)
    (w : World) :
  builders w !! b = Some this →
  (∃ this',
     enable f b w =
       Returned b {| builders := <[b := this']> (builders w); trace := trace w |}
     ∧ flag f this' = true
     ∧ (∀ g, g ≠ f → flag g this' = flag g this)
     ∧ Err this' = Err this)
  ∧ (∀ (ops : list Op) (g : Flag), flag g this = true →
       ∃ this', builders (runOps ops w) !! b = Some this' ∧ flag g this' = true).
Proof.
  intros Hb. split; [by apply enable_run|].
  intros ops g Hg. destruct (runOps_keeps ops b this w Hb) as (this' & ? & Hmono & _).
  exists this'. split; [done|]. by apply Hmono.
Qed.

(** C10. [Build] leaves every builder as it found it, however it ends,
    and so does the earlier [Build] of configs_builder.go; a new builder
    starts with a nil [Err], and no operation of the package ever writes
    [Err]. *)
Theorem Build_leaves_builder_untouched (b : loc) (w : World) :
  builders (worldOf (Build b w)) = builders w
  ∧ builders (worldOf (Legacy.Build b w)) = builders w
  ∧ (∃ b', NewConfigsBuilder w =
             Returned b' {| builders := <[b' := zeroBuilder]> (builders w);
                            trace := trace w |}
           ∧ builders w !! b' = None ∧ Err zeroBuilder = None)
  ∧ (∀ (ops : list Op) (this : configsBuilder),
       builders w !! b = Some this →
       ∃ this', builders (runOps ops w) !! b = Some this' ∧ Err this' = Err this).
Proof.
  split; [apply Build_builders|]. split; [apply Legacy_Build_builders|]. split.
  - destruct (NewConfigsBuilder_run w) as (b' & ? & ?). by exists b'.
  - intros ops this Hb.
    destruct (runOps_keeps ops b this w Hb) as (this' & ? & _ & ?).
    by exists this'.
Qed.

Lemma Build_first_failure (b : loc) (this : configsBuilder)
    (w : World) (D : Domain) (e : error) :
  builders w !! b = Some this →
  EvUnmarshal (schemaFor D) (Some e) ∈ eventsSince w (worldOf (Build b w)) →
  enabled this D = true
  ∧ (∃ before l,
       Build b w =
         Returned (None, Some e)
           (after w (before ++ [EvUnmarshal (schemaFor D) (Some e);
                                EvLogError l (failureMessage D) e]))
       ∧ (∀ ev, ev ∈ before → failure ev = None)
       ∧ (∀ D', D' ∈ domainsTouched before → position D' < position D))
  ∧ (∀ D' err, position D < position D' →
       EvUnmarshal (schemaFor D') err ∉ eventsSince w (worldOf (Build b w))).
Proof.
  intros Hb Hfail.
  assert (enabled this D = true
    ∧ ∃ before l,
        Build b w =
          Returned (None, Some e)
            (after w (before ++ [EvUnmarshal (schemaFor D) (Some e);
                                 EvLogError l (failureMessage D) e]))
        ∧ (∀ ev, ev ∈ before → failure ev = None)
        ∧ (∀ D', D' ∈ domainsTouched before → position D' < position D))
    as (Hen & before & l & Hbuild & Hok & Hearlier).
  { destruct (Build_run b this w Hb)
      as [cfgs _ _ _ _ _|n ev e0 logs Hn Hlogs|n which e0 cfgs Hn _];
      simpl in Hfail; rewrite eventsSince_after in Hfail.
    - by apply plan_succeeds in Hfail.
    - apply elem_of_app in Hfail as [Hfail|Hfail].
      { apply subseteq_take in Hfail. by apply plan_succeeds in Hfail. }
      apply elem_of_cons in Hfail as [Hfail|Hfail].
      2: { by destruct (loggedAfter_logs _ _ _ Hlogs _ Hfail) as (? & ? & ?). }
      destruct ev as [|target err| | |]; try done.
      simpl in Hfail. injection Hfail as <- <-.
      pose proof (plan_succeeds this _ (list_elem_of_lookup_2 _ _ _ Hn)) as Herr.
      simpl in Herr. subst err.
      destruct (plan_lookup_domain this n D None Hn) as [Hge Hj].
      simpl in Hlogs. rewrite decide_False in Hlogs
        by (by destruct D; intros [|]).
      destruct Hlogs as (d & l & Hd%schemaFor_inj & ->). subst d.
      split.
      { apply list_elem_of_lookup_2, list_elem_of_filter in Hj. apply Hj. }
      exists (take n (plan this)), l. split; [done|]. split.
      + intros ev Hev%subseteq_take. by apply plan_succeeds in Hev.
      + intros D'. rewrite domainsTouched_take_plan. by apply enabled_before.
    - apply elem_of_app in Hfail as [Hfail|Hfail].
      + apply subseteq_take in Hfail. by apply plan_succeeds in Hfail.
      + by apply list_elem_of_singleton in Hfail. }
  split; [done|]. split; [by exists before, l|].
  intros D' err Hlater Hin. rewrite Hbuild in Hin. simpl in Hin.
  rewrite eventsSince_after in Hin.
  apply elem_of_app in Hin as [Hin|Hin].
  - assert (D' ∈ domainsTouched before) as Htouched.
    { unfold domainsTouched. apply list_elem_of_omap.
      eexists. split; [done|]. apply domainOf_schemaFor. }
    apply Hearlier in Htouched. lia.
  - apply elem_of_cons in Hin as [[= Heq _]|Hin].
    + apply schemaFor_inj in Heq. subst. lia.
    + by apply list_elem_of_singleton in Hin.
Qed.

Lemma Legacy_first_failure (b : loc) (this : configsBuilder) (w : World)
    (s : Schema) (e : error) :
  builders w !! b = Some this →
  EvUnmarshal s (Some e) ∈ eventsSince w (worldOf (Legacy.Build b w)) →
  ∃ before logs,
    Legacy.Build b w =
      Returned (None, Some e) (after w (before ++ EvUnmarshal s (Some e) :: logs))
    ∧ (∀ ev, ev ∈ before → failure ev = None)
    ∧ (∀ ev, ev ∈ logs → ∃ l msg, ev = EvLogError l msg e).
Proof.
  intros Hb Hfail.
  destruct (Legacy_Build_run b this w Hb) as [cfgs|n ev e0 logs Hn Hlogs|];
    simpl in Hfail; rewrite eventsSince_after in Hfail.
  - by apply Legacy_plan_succeeds in Hfail.
  - assert (∀ x, x ∈ logs → ∃ l msg, x = EvLogError l msg e0) as Hlog.
    { destruct Hlogs as [->|(l & msg & ->)].
      - intros x Hx. by apply not_elem_of_nil in Hx.
      - intros x ->%list_elem_of_singleton. by eexists _, _. }
    apply elem_of_app in Hfail as [Hfail|Hfail].
    { apply subseteq_take in Hfail. by apply Legacy_plan_succeeds in Hfail. }
    apply elem_of_cons in Hfail as [Hfail|Hfail].
    2: { by destruct (Hlog _ Hfail) as (? & ? & ?). }
    destruct ev as [|target err| | |]; try done.
    simpl in Hfail. injection Hfail as <- <-.
    exists (take n (Legacy.plan this)), logs. split; [done|]. split; [|done].
    intros ev Hev%subseteq_take. by apply Legacy_plan_succeeds in Hev.
  - exfalso. unfold Legacy.basePlan in Hfail.
    repeat (apply elem_of_cons in Hfail as [Hfail|Hfail]; [done|]).
    by apply not_elem_of_nil in Hfail.
Qed.

(** C3. When the deserialization of an optional domain [D] fails during
    [Build], [D] is an enabled domain, [Build] returns a nil bundle with
    that very error, and the failed call is the last one [Build] makes but
    for the log entry about it: the calls before it all succeeded and
    concern domains earlier in the processing order, so no domain after [D]
    is deserialized, and none is handed to the caller.  The earlier [Build]
    of configs_builder.go stops the same way at the first deserialization
    that fails. *)
Theorem Build_stops_at_first_failure (b : loc) (this : configsBuilder)
    (w : World) :
  builders w !! b = Some this →
  (∀ (D : Domain) (e : error),
     EvUnmarshal (schemaFor D) (Some e) ∈ eventsSince w (worldOf (Build b w)) →
     enabled this D = true
     ∧ (∃ before l,
          Build b w =
            Returned (None, Some e)
              (after w (before ++ [EvUnmarshal (schemaFor D) (Some e);
                                   EvLogError l (failureMessage D) e]))
          ∧ (∀ ev, ev ∈ before → failure ev = None)
          ∧ (∀ D', D' ∈ domainsTouched before → position D' < position D))
     ∧ (∀ D' err, position D < position D' →
          EvUnmarshal (schemaFor D') err ∉ eventsSince w (worldOf (Build b w))))
  ∧ (∀ (s : Schema) (e : error),
       EvUnmarshal s (Some e) ∈ eventsSince w (worldOf (Legacy.Build b w)) →
       ∃ before logs,
         Legacy.Build b w =
           Returned (None, Some e)
             (after w (before ++ EvUnmarshal s (Some e) :: logs))
         ∧ (∀ ev, ev ∈ before → failure ev = None)
         ∧ (∀ ev, ev ∈ logs → ∃ l msg, ev = EvLogError l msg e)).
Proof.
  intros Hb. split.
  - intros D e. by apply (Build_first_failure b this).
  - intros s e. by apply (Legacy_first_failure b this).
Qed.

(** C5. The optional domains [Build] deserializes are, in the order it
    does so, an initial part of the enabled domains taken in the order
    HTTP, Postgres, Identity, MQTT, RabbitMQ, AWS, DynamoDB, and all of them
    when [Build] succeeds; and whenever an optional domain is reached, the
    run began by reading the file, deserializing the base application and
    observability schemas and installing logging, all without error. *)
Theorem Build_follows_processing_order (b : loc) (this : configsBuilder)
    (w : World) :
  builders w !! b = Some this →
  processingOrder =
    [DomHTTP; DomPostgres; DomIdentity; DomMQTT; DomRabbitMQ; DomAWS; DomDynamoDB]
  ∧ domainsTouched (eventsSince w (worldOf (Build b w)))
      `prefix_of` filter (λ d, enabled this d = true) processingOrder
  ∧ (∀ cfgs w', Build b w = Returned (Some cfgs, None) w' →
       domainsTouched (eventsSince w w')
       = filter (λ d, enabled this d = true) processingOrder)
  ∧ (domainsTouched (eventsSince w (worldOf (Build b w))) ≠ [] →
       ∃ rest, eventsSince w (worldOf (Build b w))
               = basePlan ++ installPlan this ++ rest).
Proof.
  intros Hb. split; [done|].
  assert (∀ n ev e logs, plan this !! n = Some ev → loggedAfter ev e logs →
            domainsTouched (take n (plan this) ++ failing ev e :: logs)
            = domainsTouched (take (S n) (plan this))) as Hcut.
  { intros n ev e logs Hn Hlogs. rewrite (take_S_r _ _ _ Hn).
    unfold domainsTouched. rewrite !omap_app. f_equal.
    replace (failing ev e :: logs) with ([failing ev e] ++ logs) by done.
    rewrite omap_app. fold (domainsTouched logs). rewrite (domainsTouched_logs _ _ _ Hlogs).
    simpl. by rewrite touched_failing, app_nil_r. }
  assert (∀ n which e, plan this !! n = Some (EvInstall which None) →
            domainsTouched (take n (plan this) ++ [EvInstall which (Some e)]) = [])
    as Hcrash.
  { intros n which e Hn%plan_lookup_install.
    unfold domainsTouched. rewrite omap_app. simpl. rewrite app_nil_r.
    fold (domainsTouched (take n (plan this))).
    rewrite domainsTouched_take_plan.
    by replace (n - length (basePlan ++ installPlan this)) with 0 by lia. }
  destruct (Build_run b this w Hb)
    as [cfgs _ _ _ _ _|n ev e logs Hn Hlogs|n which e cfgs Hn _];
    simpl; rewrite eventsSince_after.
  - assert (domainsTouched (plan this)
            = filter (λ d, enabled this d = true) processingOrder) as Hall.
    { rewrite <-(firstn_all (plan this)), domainsTouched_take_plan.
      apply take_ge. unfold plan.
      rewrite (app_assoc basePlan), length_app.
      unfold domainPlan. rewrite length_fmap. lia. }
    rewrite Hall. split; [done|]. split.
    + intros cfgs' w' [= _ <-]. by rewrite eventsSince_after.
    + intros _. by eexists.
  - rewrite (Hcut _ _ _ _ Hn Hlogs), domainsTouched_take_plan.
    split; [apply prefix_take|]. split; [done|].
    intros Hne.
    assert (length (basePlan ++ installPlan this) ≤ n) as Hge.
    { destruct (decide (length (basePlan ++ installPlan this) ≤ n)); [done|].
      exfalso. apply Hne.
      by replace (S n - length (basePlan ++ installPlan this)) with 0 by lia. }
    unfold plan. rewrite (app_assoc basePlan), take_app_ge by done.
    eexists. by rewrite <-!app_assoc.
  - rewrite (Hcrash _ _ _ Hn). split; [apply prefix_nil|]. done.
Qed.

(** [Build] on a live builder panics only when a logger installer fails
    and hands back a nil logger. *)
Lemma Build_panic_cause (b : loc) (this : configsBuilder) (w w' : World) :
  builders w !! b = Some this → Build b w = Panicked w' →
  ∃ cfgs e, otlpLogging_Install cfgs = Failed None e
            ∨ noopLogging_Install cfgs = Failed None e.
Proof.
  intros Hb Hbuild. pose proof (Build_run b this w Hb) as Hrun.
  rewrite Hbuild in Hrun.
  inversion Hrun as [| |n which e cfgs Hn [[_ Hwhy]|[_ Hwhy]]]; subst;
    exists cfgs, e; [by left|by right].
Qed.

End builder_claims.

(** ** The results at work on a concrete host *)

Section examples.
#[local] Existing Instance Sample.host.
#[local] Existing Instance Sample.working.
#[local] Existing Instance Sample.legacy.

(** With the file declaring only the host, the port of the HTTP schema
    falls back on its declared default. *)
Lemma explicit_beats_registered_default_witness :
  fieldSource (loadStructDefaults New (pointerTo HTTPSchema)) Sample.portField
  = Some "8080".
Proof.
  assert (schemaOf HTTPSchema !! 1 = Some Sample.portField) as Hfield
    by reflexivity.
  assert (declaresBoth Sample.portField = Some ("HTTP_PORT", "8080")) as Hboth
    by reflexivity.
  destruct (explicit_beats_registered_default New _ _ _ _ _ Hfield Hboth)
    as [Hsrc _].
  unfold pointerTo. rewrite Hsrc. vm_compute. reflexivity.
Defined.

(** C1 as the specification words it fails on a schema whose fields share
    a mapping key: the first field reads the default of the second. *)
Lemma own_default_counterexample :
  ¬ explicitBeatsOwnDefault New Sample.twicePort.
Proof.
  intros Hown.
  assert (Sample.twicePort !! 0 =
          Some {| Name := "Port";
                  Tag := [("mapstructure", "PORT"); ("default", "1")] |})
    as Hfield by reflexivity.
  specialize (Hown 0 _ "PORT" "1" Hfield eq_refl).
  vm_compute in Hown. discriminate Hown.
Qed.

Lemma injector_registers_annotated_fields_witness :
  loadStructDefaults New (PtrTo (StructV Sample.unannotated)) = New.
Proof.
  apply (injector_registers_annotated_fields New Sample.unannotated).
  intros field Hfield.
  repeat (apply elem_of_cons in Hfield as [->|Hfield]; [vm_compute; tauto|]).
  by apply not_elem_of_nil in Hfield.
Defined.

Lemma injector_ignores_non_structs_witness :
  loadStructDefaults New (PtrTo (Scalar PString)) = New.
Proof. by apply injector_ignores_non_structs. Defined.

(** The builder with HTTP and Postgres enabled: the HTTP schema loads, the
    Postgres schema misses its host, and [Build] stops there; the earlier
    [Build] stops at the base schema, whose target is nil. *)
Lemma Build_stops_at_first_failure_witness :
  (∃ w', Build 2%positive Sample.world
         = Returned (None, Some "no value for Host") w')
  ∧ (∃ w', Legacy.Build 2%positive Sample.world
           = Returned (None, Some "result must be addressable (a pointer)") w').
Proof.
  assert (builders Sample.world !! 2%positive = Some Sample.httpAndPostgres)
    as Hb by reflexivity.
  destruct (Build_stops_at_first_failure 2%positive _ Sample.world Hb)
    as [Hnow Hthen].
  split.
  - destruct (Hnow DomPostgres "no value for Host")
      as (_ & (before & l & Hbuild & _) & _).
    { apply (list_elem_of_lookup_2 _ 5). vm_compute. reflexivity. }
    eexists. exact Hbuild.
  - destruct (Hthen AppSchema "result must be addressable (a pointer)")
      as (before & logs & Hbuild & _).
    { apply (list_elem_of_lookup_2 _ 1). vm_compute. reflexivity. }
    eexists. exact Hbuild.
Defined.

(** The builder with HTTP only: [Build] succeeds and the bundle has the
    HTTP block and no Postgres block. *)
Lemma Build_populates_enabled_domains_witness :
  ∃ cfgs w', Build 1%positive Sample.world = Returned (Some cfgs, None) w'
    ∧ is_Some (attached DomHTTP cfgs) ∧ attached DomPostgres cfgs = None.
Proof.
  assert (builders Sample.world !! 1%positive = Some Sample.httpOnly)
    as Hb by reflexivity.
  assert (match Build 1%positive Sample.world with
          | Returned (_, None) _ => true
          | _ => false
          end = true) as Hok by (vm_compute; reflexivity).
  destruct (Build 1%positive Sample.world) as [[bundle [e|]] w'|w'] eqn:Hbuild;
    [discriminate Hok| |discriminate Hok].
  destruct (Build_populates_enabled_domains 1%positive _ _ _ _ Hb Hbuild)
    as (cfgs & -> & Hiff & _).
  exists cfgs, w'. split; [done|]. split.
  - by apply Hiff.
  - destruct (attached DomPostgres cfgs) as [inst|] eqn:Hpg; [|done].
    assert (is_Some (attached DomPostgres cfgs)) as Hsome
      by (rewrite Hpg; by eexists).
    apply Hiff in Hsome. discriminate Hsome.
Defined.

Lemma Build_follows_processing_order_witness :
  domainsTouched (eventsSince Sample.world (worldOf (Build 2%positive Sample.world)))
    `prefix_of` [DomHTTP; DomPostgres].
Proof.
  assert (builders Sample.world !! 2%positive = Some Sample.httpAndPostgres)
    as Hb by reflexivity.
  apply (Build_follows_processing_order 2%positive _ Sample.world Hb).
Defined.

Lemma enable_sets_own_flag_only_witness :
  (∃ w', Postgres 1%positive Sample.world = Returned 1%positive w'
         ∧ builders w' !! 1%positive = Some Sample.httpAndPostgres)
  ∧ ∃ this', builders (runOps [OpEnable FlagOtlp 1%positive; OpBuild 1%positive]
                         Sample.world) !! 1%positive = Some this'
             ∧ http this' = true.
Proof.
  assert (builders Sample.world !! 1%positive = Some Sample.httpOnly)
    as Hb by reflexivity.
  destruct (enable_sets_own_flag_only FlagPostgres 1%positive _ Sample.world Hb)
    as [(this' & Hrun & _) Hkept].
  split.
  - eexists. split; [reflexivity|]. reflexivity.
  - apply (Hkept _ FlagHTTP). reflexivity.
Defined.

Lemma Build_leaves_builder_untouched_witness :
  builders (worldOf (Build 2%positive Sample.world)) = builders Sample.world
  ∧ ∃ this', builders (runOps [OpBuild 2%positive; OpLegacyBuild 2%positive]
                         Sample.world) !! 2%positive = Some this'
             ∧ Err this' = None.
Proof.
  destruct (Build_leaves_builder_untouched 2%positive Sample.world)
    as (Hnow & _ & _ & Herr).
  split; [exact Hnow|].
  apply (Herr _ Sample.httpAndPostgres). reflexivity.
Defined.

(** C7. When the no-op (or the OTLP) logger installer fails and hands back
    a nil logger with its error, [Build] panics logging through that
    logger, after the base schemas are loaded, instead of returning the
    error. *)
Theorem Build_panics_when_logger_install_fails :
  @Build Sample.host Sample.broken 1%positive Sample.world
  = Panicked (after Sample.world
      [EvReadInConfig ".env.development" None; EvUnmarshal AppSchema None;
       EvUnmarshal OTLPSchema None;
       EvInstall NoopLogging (Some "noop: install failed")])
  ∧ @Build Sample.host Sample.broken 3%positive Sample.world
    = Panicked (after Sample.world
        [EvReadInConfig ".env.development" None; EvUnmarshal AppSchema None;
         EvUnmarshal OTLPSchema None;
         EvInstall OtlpLogging (Some "otlp: exporter unreachable")]).
Proof.
  split.
  - pose proof (@Build_builders Sample.host Sample.broken 1%positive Sample.world)
      as Hheap.
    assert (trace (worldOf (@Build Sample.host Sample.broken 1%positive Sample.world))
            = [EvReadInConfig ".env.development" None; EvUnmarshal AppSchema None;
               EvUnmarshal OTLPSchema None;
               EvInstall NoopLogging (Some "noop: install failed")])
      as Htrace by (vm_compute; reflexivity).
    assert (match @Build Sample.host Sample.broken 1%positive Sample.world with
            | Panicked _ => true
            | Returned _ _ => false
            end = true) as Hpanic by (vm_compute; reflexivity).
    destruct (@Build Sample.host Sample.broken 1%positive Sample.world)
      as [r w'|[heap events]]; [discriminate Hpanic|].
    simpl in Hheap, Htrace. by subst.
  - pose proof (@Build_builders Sample.host Sample.broken 3%positive Sample.world)
      as Hheap.
    assert (trace (worldOf (@Build Sample.host Sample.broken 3%positive Sample.world))
            = [EvReadInConfig ".env.development" None; EvUnmarshal AppSchema None;
               EvUnmarshal OTLPSchema None;
               EvInstall OtlpLogging (Some "otlp: exporter unreachable")])
      as Htrace by (vm_compute; reflexivity).
    assert (match @Build Sample.host Sample.broken 3%positive Sample.world with
            | Panicked _ => true
            | Returned _ _ => false
            end = true) as Hpanic by (vm_compute; reflexivity).
    destruct (@Build Sample.host Sample.broken 3%positive Sample.world)
      as [r w'|[heap events]]; [discriminate Hpanic|].
    simpl in Hheap, Htrace. by subst.
Qed.

End examples.

(** * Further properties of the code *)

(** ** The Default Injector, beyond the claims *)

Section injector_more.
Context `{Host}.

Lemma lastDefault_elem_of (regs : list (string * string)) (key d : string) :
  lastDefault regs key = Some d → ∃ k, (k, d) ∈ regs ∧ ToLower k = key.
Proof.
  induction regs as [|[k0 d0] regs IH]; [done|].
  simpl. destruct (lastDefault regs key) as [y|].
  - intros [= ->]. destruct IH as (k & ? & ?); [done|].
    exists k. split; [by right|done].
  - case_decide; [|done]. intros [= ->]. exists k0. split; [left|done].
Qed.

(** With one registration per key, any registration is the last one. *)
Lemma lastDefault_unique (regs : list (string * string)) (k d : string) :
  NoDup ((λ kd, ToLower kd.1) <$> regs) → (k, d) ∈ regs →
  lastDefault regs (ToLower k) = Some d.
Proof.
  induction regs as [|[k0 d0] regs IH]; intros Hnd Hin.
  { by apply not_elem_of_nil in Hin. }
  rewrite fmap_cons in Hnd. apply NoDup_cons in Hnd as [Hfresh Hnd].
  simpl in *. apply elem_of_cons in Hin as [[= <- <-]|Hin].
  - destruct (lastDefault regs (ToLower k)) as [d'|] eqn:Hlast.
    + exfalso. apply Hfresh.
      destruct (lastDefault_elem_of _ _ _ Hlast) as (k' & Hk' & Heq).
      apply list_elem_of_fmap. by exists (k', d').
    + by rewrite decide_True.
  - by rewrite (IH Hnd Hin).
Qed.

(** X1. When the fields that register a default do so under pairwise
    different keys (compared as the store compares them), the order in which
    a struct declares its fields does not matter to [loadStructDefaults]:
    any reordering of the fields leaves the store in the same state. *)
Theorem injector_order_irrelevant (v : Viper) (typ typ' : StructType) :
  typ ≡ₚ typ' →
  NoDup ((λ kd, ToLower kd.1) <$> registrations typ) →
  loadStructDefaults v (PtrTo (StructV typ))
  = loadStructDefaults v (PtrTo (StructV typ')).
Proof.
  intros Hperm Hnd. rewrite !loadStructDefaults_pointer.
  assert (registrations typ ≡ₚ registrations typ') as Hregs.
  { unfold registrations. by rewrite Hperm. }
  assert (NoDup ((λ kd, ToLower kd.1) <$> registrations typ')) as Hnd'.
  { by rewrite <-Hregs. }
  destruct (foldl_register_frame (registrations typ) v) as (?&?&?&?).
  destruct (foldl_register_frame (registrations typ') v) as (?&?&?&?).
  apply Viper_eq; try congruence.
  apply map_eq; intros key. rewrite !foldl_register_defaults.
  assert (lastDefault (registrations typ) key
          = lastDefault (registrations typ') key) as ->; [|done].
  apply option_eq; intros d. split; intros Hlast.
  - destruct (lastDefault_elem_of _ _ _ Hlast) as (k & Hin & <-).
    apply lastDefault_unique; [done|]. by rewrite <-Hregs.
  - destruct (lastDefault_elem_of _ _ _ Hlast) as (k & Hin & <-).
    apply lastDefault_unique; [done|]. by rewrite Hregs.
Qed.

(** X2. Running [loadStructDefaults] for one struct and then for another
    leaves the store as one run for a struct with the fields of both, the
    first's before the second's: the defaults of different schemas pile up
    in the one store. *)
Theorem injector_runs_compose (v : Viper) (typ1 typ2 : StructType) :
  loadStructDefaults (loadStructDefaults v (PtrTo (StructV typ1)))
    (PtrTo (StructV typ2))
  = loadStructDefaults v (PtrTo (StructV (typ1 ++ typ2))).
Proof.
  rewrite !loadStructDefaults_pointer. unfold registrations.
  by rewrite omap_app, foldl_app.
Qed.

(** X3. Defaults are shared between schemas: a field of a later schema
    that declares a mapping key but no default of its own is read, when no
    explicit source has the key, from the default an earlier schema
    registered under that key. *)
Theorem earlier_defaults_reach_later_schemas (v : Viper)
    (typ1 typ2 : StructType) (field : StructField) (k d : string) :
  mappingKey field = Some k →
  explicit v (ToLower k) = None →
  lastDefault (registrations typ2) (ToLower k) = None →
  lastDefault (registrations typ1) (ToLower k) = Some d →
  fieldSource
    (loadStructDefaults (loadStructDefaults v (PtrTo (StructV typ1)))
       (PtrTo (StructV typ2))) field
  = Some d.
Proof.
  intros Hkey Hexp Hnone Hsome. unfold fieldSource, Get, find.
  rewrite Hkey, !loadStructDefaults_pointer, !explicit_foldl_register, Hexp.
  by rewrite !foldl_register_defaults, Hnone, Hsome.
Qed.

(** X4. [loadStructDefaults] looks through at most one pointer: a struct
    passed by value has its defaults registered like a pointer to it, a
    pointer to a pointer to a struct registers nothing. *)
Theorem injector_follows_one_pointer (v : Viper) (typ : StructType) :
  loadStructDefaults v (StructV typ) = foldl register v (registrations typ)
  ∧ loadStructDefaults v (StructV typ) = loadStructDefaults v (PtrTo (StructV typ))
  ∧ loadStructDefaults v (PtrTo (PtrTo (StructV typ))) = v.
Proof.
  split; [apply loadStructDefaults_value|]. split.
  - by rewrite loadStructDefaults_value, loadStructDefaults_pointer.
  - by apply loadStructDefaults_other.
Qed.

(** X5. [loadStructDefaults] only ever adds defaults: the keys that have
    a default afterwards are those that had one before together with the
    (lower-cased) mapping keys of the fields that register one. *)
Theorem injector_only_adds_keys (v : Viper) (typ : StructType) :
  dom (defaults (loadStructDefaults v (PtrTo (StructV typ))))
  = dom (defaults v)
    ∪ list_to_set ((λ kd, ToLower kd.1) <$> registrations typ).
Proof.
  rewrite loadStructDefaults_pointer. apply set_eq. intros key.
  rewrite elem_of_union, !elem_of_dom, foldl_register_defaults.
  rewrite elem_of_list_to_set, list_elem_of_fmap.
  destruct (lastDefault (registrations typ) key) as [d|] eqn:Hlast.
  - split; [|by eexists]. intros _. right.
    destruct (lastDefault_elem_of _ _ _ Hlast) as (k & Hin & <-).
    by exists (k, d).
  - split; [by left|]. intros [?|([k d] & -> & Hin)]; [done|].
    exfalso. simpl in Hlast.
    assert (∀ regs, (k, d) ∈ regs → lastDefault regs (ToLower k) ≠ None)
      as Hsome; [|by apply (Hsome _ Hin)].
    clear. intros regs. induction regs as [|[k0 d0] regs IH]; intros Hin.
    { by apply not_elem_of_nil in Hin. }
    simpl. apply elem_of_cons in Hin as [[= <- <-]|Hin].
    + destruct (lastDefault regs (ToLower k)); [done|]. by rewrite decide_True.
    + destruct (lastDefault regs (ToLower k)) eqn:Hrest; [done|].
      by destruct (IH Hin).
Qed.

End injector_more.

(** ** The builder's methods, beyond the claims *)

Section methods_more.
Context `{Observability} `{!Legacy.Collaborators}.

Lemma enable_eq (f : Flag) (b : loc) (this : configsBuilder) (w : World) :
  builders w !! b = Some this →
  enable f b w =
  Returned b {| builders := <[b := setFlag f this]> (builders w);
                trace := trace w |}.
Proof.
  intros Hb.
  destruct f; simpl;
    unfold HTTP, Otlp, Postgres, Identity, MQTT, RabbitMQ, AWS, DynamoDB,
      fn, write, return_, mbind, Proc_bind, bind;
    by rewrite Hb.
Qed.

Lemma setFlag_idemp (f : Flag) (this : configsBuilder) :
  setFlag f (setFlag f this) = setFlag f this.
Proof. by destruct f. Qed.

Lemma setFlag_comm (f g : Flag) (this : configsBuilder) :
  setFlag g (setFlag f this) = setFlag f (setFlag g this).
Proof. by destruct f, g. Qed.

Lemma flag_setFlag (f g : Flag) (this : configsBuilder) :
  flag g (setFlag f this) = if decide (g = f) then true else flag g this.
Proof. by destruct f, g. Qed.

Lemma World_eq (w1 w2 : World) :
  builders w1 = builders w2 → trace w1 = trace w2 → w1 = w2.
Proof. destruct w1, w2; simpl; by intros -> ->. Qed.

(** X6. Enabling is idempotent and the enable methods commute, on one
    builder as across builders: calling a method twice is calling it once,
    and the order of two calls does not matter to the state they leave. *)
Theorem enable_idempotent_and_commutes (f g : Flag) (b b' : loc) (w : World) :
  worldOf (enable f b (worldOf (enable f b w))) = worldOf (enable f b w)
  ∧ worldOf (enable g b' (worldOf (enable f b w)))
    = worldOf (enable f b (worldOf (enable g b' w))).
Proof.
  split.
  - destruct (builders w !! b) as [this|] eqn:Hb.
    + rewrite (enable_eq f b this w Hb). simpl.
      erewrite enable_eq by (simpl; apply lookup_insert_eq). simpl.
      apply World_eq; simpl; [|done].
      by rewrite insert_insert_eq, setFlag_idemp.
    + rewrite (enable_dangling f b w Hb). simpl.
      by rewrite (enable_dangling f b w Hb).
  - destruct (builders w !! b) as [this|] eqn:Hb;
      destruct (builders w !! b') as [that|] eqn:Hb'.
    + rewrite (enable_eq f b this w Hb), (enable_eq g b' that w Hb'). simpl.
      destruct (decide (b = b')) as [<-|Hne].
      * simplify_eq.
        erewrite !enable_eq by (simpl; apply lookup_insert_eq). simpl.
        apply World_eq; simpl; [|done].
        by rewrite !insert_insert_eq, setFlag_comm.
      * erewrite (enable_eq g b') by (simpl; by rewrite lookup_insert_ne).
        erewrite (enable_eq f b) by (simpl; by rewrite lookup_insert_ne).
        simpl. apply World_eq; simpl; [|done].
        by apply insert_insert_ne.
    + rewrite (enable_eq f b this w Hb), (enable_dangling g b' w Hb'). simpl.
      rewrite (enable_eq f b this w Hb). simpl.
      rewrite enable_dangling; [done|]. simpl.
      rewrite lookup_insert_ne; [done|]. congruence.
    + rewrite (enable_dangling f b w Hb), (enable_eq g b' that w Hb'). simpl.
      rewrite (enable_eq g b' that w Hb'). simpl.
      rewrite enable_dangling; [done|]. simpl.
      rewrite lookup_insert_ne; [done|]. congruence.
    + rewrite (enable_dangling f b w Hb), (enable_dangling g b' w Hb'). simpl.
      by rewrite (enable_dangling f b w Hb), (enable_dangling g b' w Hb').
Qed.

(** A chain of enable calls on a live builder, as one update. *)
Lemma chained_run (fs : list Flag) (b : loc) (this : configsBuilder) (w : World) :
  builders w !! b = Some this →
  runOps (chained fs b) w =
  {| builders := <[b := foldl (λ s f, setFlag f s) this fs]> (builders w);
     trace := trace w |}.
Proof.
  revert this w. induction fs as [|f fs IH]; intros this w Hb.
  - simpl. apply World_eq; simpl; [|done]. by rewrite insert_id.
  - unfold chained, runOps in *. simpl.
    rewrite (enable_eq f b this w Hb). simpl.
    rewrite (IH (setFlag f this)) by (simpl; apply lookup_insert_eq).
    simpl. apply World_eq; simpl; [|done]. by rewrite insert_insert_eq.
Qed.

Lemma flag_foldl_setFlag (fs : list Flag) (this : configsBuilder) (g : Flag) :
  flag g (foldl (λ s f, setFlag f s) this fs) = true
  ↔ flag g this = true ∨ g ∈ fs.
Proof.
  revert this. induction fs as [|f fs IH]; intros this; simpl.
  - split; [by left|]. intros [?|Hin]; [done|]. by apply not_elem_of_nil in Hin.
  - rewrite IH, flag_setFlag, elem_of_cons. case_decide as Hg.
    + subst. split; [intros _; right; by left|intros _; by left].
    + split.
      * intros [?|?]; [by left|right; by right].
      * intros [?|[?|?]]; [by left|done|by right].
Qed.

Lemma Err_foldl_setFlag (fs : list Flag) (this : configsBuilder) :
  Err (foldl (λ s f, setFlag f s) this fs) = Err this.
Proof.
  revert this. induction fs as [|f fs IH]; intros this; [done|].
  simpl. by rewrite IH.
Qed.

(** X7. After [NewConfigsBuilder] and any chain of enable calls on the
    builder it returned, the flags that are set are exactly those whose
    method occurs in the chain, [Err] is nil, the trace is as before and no
    other builder has changed. *)
Theorem chained_enables_set_their_flags (fs : list Flag) (b : loc)
    (w w0 : World) :
  NewConfigsBuilder w = Returned b w0 →
  ∃ this,
    builders (runOps (chained fs b) w0) !! b = Some this
    ∧ (∀ g, flag g this = true ↔ g ∈ fs)
    ∧ Err this = None
    ∧ trace (runOps (chained fs b) w0) = trace w
    ∧ (∀ b', b' ≠ b →
         builders (runOps (chained fs b) w0) !! b' = builders w !! b').
Proof.
  intros Hnew. destruct (NewConfigsBuilder_run w) as (b0 & Hrun & Hfresh).
  rewrite Hrun in Hnew. injection Hnew as -> <-.
  rewrite (chained_run fs b zeroBuilder) by (simpl; apply lookup_insert_eq).
  simpl. eexists. split; [apply lookup_insert_eq|].
  split; [|split; [apply Err_foldl_setFlag|split; [done|]]].
  - intros g. rewrite flag_foldl_setFlag. split; [|by right].
    intros [Hzero|?]; [|done]. by destruct g.
  - intros b' Hne. by rewrite insert_insert_eq, lookup_insert_ne.
Qed.

(** X8. Through a pointer to no builder an enable method panics at once,
    changing nothing, and neither [Build] ever hands out a bundle: it
    returns an error of the load or panics. *)
Theorem dangling_receiver (b : loc) (w : World) :
  builders w !! b = None →
  (∀ f, enable f b w = Panicked w)
  ∧ (∀ bundle err w', Build b w = Returned (bundle, err) w' →
       bundle = None ∧ is_Some err)
  ∧ (∀ bundle err w', Legacy.Build b w = Returned (bundle, err) w' →
       bundle = None ∧ is_Some err).
Proof.
  intros Hb. split; [intros f; by apply enable_dangling|]. split.
  - intros bundle err w'. rewrite Build_blocks.
    unfold fn, call, mbind, Proc_bind, bind.
    destruct (newConfigs_run b w)
      as [(cfgs0 & -> & _)|(n & ev & e & _ & _ & ->)].
    + cbn -[loadDomainsThen].
      unfold pure, setupObservability, fn, read, mbind, Proc_bind, bind.
      simpl. by rewrite Hb.
    + intros [= <- <- _]. split; [done|by eexists].
  - intros bundle err w'.
    unfold Legacy.Build, fn, ReadInConfig, Legacy.unmarshalPtr,
      Legacy.assertZap, read, emit, return_, panic, mbind, mret, Proc_bind,
      Proc_ret, bind, pure.
    simpl.
    destruct (readEnvFile _) as [entries|e]; simpl.
    2: { intros [= <- <- _]. split; [done|by eexists]. }
    destruct (Legacy.unmarshalNil _ AppSchema) as [e|]; simpl.
    { intros [= <- <- _]. split; [done|by eexists]. }
    destruct (Legacy.NewDefaultLogger _) as [[l|l]|e]; simpl.
    + by rewrite Hb.
    + done.
    + intros [= <- <- _]. split; [done|by eexists].
Qed.

End methods_more.

(** ** [Build], beyond the claims *)

Section build_more.
Context `{Observability} `{!Legacy.Collaborators}.

(** X9. The exit contract of [Build] on a live builder: it returns a
    bundle and no error, or no bundle and an error, never both and never
    neither; and it panics only when a logger installer fails handing back
    a nil logger. *)
Theorem Build_exit_contract (b : loc) (this : configsBuilder) (w : World) :
  builders w !! b = Some this →
  (∃ cfgs w', Build b w = Returned (Some cfgs, None) w')
  ∨ (∃ e w', Build b w = Returned (None, Some e) w')
  ∨ (∃ w' cfgs e,
       Build b w = Panicked w'
       ∧ (otlpLogging_Install cfgs = Failed None e
          ∨ noopLogging_Install cfgs = Failed None e)).
Proof.
  intros Hb.
  destruct (Build_run b this w Hb)
    as [cfgs _ _ _ _ _|n ev e logs _ _|n which e cfgs _ [[_ Hwhy]|[_ Hwhy]]].
  - left. by eexists _, _.
  - right; left. by eexists _, _.
  - right; right. eexists _, cfgs, e. split; [done|by left].
  - right; right. eexists _, cfgs, e. split; [done|by right].
Qed.

(** X10. When the environment file named by [GO_ENV] cannot be loaded,
    both [Build]s return that error with a nil bundle, whatever the builder
    (even through a dangling pointer), and do nothing else: no schema is
    deserialized, no logger is installed, nothing is logged. *)
Theorem Build_returns_load_error (b : loc) (w : World) (e : error) :
  readEnvFile (EnvFile (Getenv "GO_ENV")) = inr e →
  Build b w =
    Returned (None, Some e)
      (after w [EvReadInConfig (EnvFile (Getenv "GO_ENV")) (Some e)])
  ∧ Legacy.Build b w =
    Returned (None, Some e)
      (after w [EvReadInConfig (EnvFile (Getenv "GO_ENV")) (Some e)]).
Proof.
  intros Hfile. split.
  - unfold Build, newConfigs, setupViper, ReadInConfig, fn, call, emit,
      return_, mbind, Proc_bind, bind. simpl. by rewrite Hfile.
  - unfold Legacy.Build, ReadInConfig, fn, emit, return_, mbind, Proc_bind,
      bind. simpl. by rewrite Hfile.
Qed.

Lemma plan_lookup_base (this : configsBuilder) (n : nat) (s : Schema)
    (err : option error) :
  s = AppSchema ∨ s = OTLPSchema →
  plan this !! n = Some (EvUnmarshal s err) →
  n = if decide (s = AppSchema) then 1 else 2.
Proof.
  intros Hs. unfold plan. rewrite (app_assoc basePlan), lookup_app.
  destruct ((basePlan ++ installPlan this) !! n) as [ev|] eqn:Hpre.
  - intros [= ->]. revert Hpre. unfold basePlan, installPlan.
    destruct n as [|[|[|n]]]; simpl.
    + done.
    + by intros [= <- _].
    + intros [= <- _]. by rewrite decide_False.
    + destruct (otlp this); by destruct n as [|[|n]].
  - unfold domainPlan. rewrite list_lookup_fmap.
    destruct (filter _ _ !! _) as [d|]; [|done]. simpl.
    intros [= <- _]. by destruct Hs as [Hs|Hs]; destruct d.
Qed.

(** X11. A base schema that fails to deserialize ends [Build] before
    logging is set up: the error is returned with a nil bundle, after the
    file was read (and, for the observability schema, the application schema
    loaded), and no installer is called and nothing is logged. *)
Theorem base_failure_is_returned_unlogged (b : loc) (this : configsBuilder)
    (w : World) (s : Schema) (e : error) :
  builders w !! b = Some this →
  s = AppSchema ∨ s = OTLPSchema →
  EvUnmarshal s (Some e) ∈ eventsSince w (worldOf (Build b w)) →
  Build b w =
    Returned (None, Some e)
      (after w (take (if decide (s = AppSchema) then 1 else 2) basePlan
                ++ [EvUnmarshal s (Some e)])).
Proof.
  intros Hb Hs Hfail.
  destruct (Build_run b this w Hb)
    as [cfgs _ _ _ _ _|n ev e0 logs Hn Hlogs|n which e0 cfgs Hn _];
    simpl in Hfail; rewrite eventsSince_after in Hfail.
  - by apply plan_succeeds in Hfail.
  - apply elem_of_app in Hfail as [Hfail|Hfail].
    { apply subseteq_take in Hfail. by apply plan_succeeds in Hfail. }
    apply elem_of_cons in Hfail as [Hfail|Hfail].
    2: { by destruct (loggedAfter_logs _ _ _ Hlogs _ Hfail) as (? & ? & ?). }
    destruct ev as [|target err| | |]; try done.
    simpl in Hfail. injection Hfail as <- <-.
    simpl in Hlogs. rewrite decide_True in Hlogs by done. subst logs.
    rewrite (plan_lookup_base this n s err Hs Hn). simpl.
    unfold plan. rewrite take_app_le; [done|].
    simpl. case_decide; lia.
  - apply elem_of_app in Hfail as [Hfail|Hfail].
    + apply subseteq_take in Hfail. by apply plan_succeeds in Hfail.
    + by apply list_elem_of_singleton in Hfail.
Qed.

Lemma plan_no_logs (this : configsBuilder) :
  Forall (λ ev, isLog ev = false) (plan this).
Proof.
  unfold plan, basePlan, installPlan, domainPlan.
  rewrite !Forall_app. split; [by repeat constructor|]. split.
  - destruct (otlp this); by repeat constructor.
  - apply Forall_fmap, Forall_true. done.
Qed.

Lemma filter_no_logs (evs : list Event) :
  Forall (λ ev, isLog ev = false) evs →
  filter (λ ev, isLog ev = true) evs = [].
Proof.
  induction 1 as [|ev evs Hev _ IH]; [done|].
  rewrite filter_cons_False; [done|]. by rewrite Hev.
Qed.

(** X12. [Build] logs nothing when it succeeds and at most one error when
    it does not. *)
Theorem Build_logs_at_most_one_error (b : loc) (this : configsBuilder)
    (w : World) :
  builders w !! b = Some this →
  length (filter (λ ev, isLog ev = true)
            (eventsSince w (worldOf (Build b w)))) ≤ 1
  ∧ (∀ cfgs w', Build b w = Returned (Some cfgs, None) w' →
       filter (λ ev, isLog ev = true) (eventsSince w w') = []).
Proof.
  intros Hb.
  assert (∀ n, filter (λ ev, isLog ev = true) (take n (plan this)) = [])
    as Hquiet.
  { intros n. apply filter_no_logs.
    eapply Forall_impl; [apply Forall_take, plan_no_logs|done]. }
  destruct (Build_run b this w Hb)
    as [cfgs _ _ _ _ _|n ev e logs Hn Hlogs|n which e cfgs Hn _];
    simpl; rewrite eventsSince_after.
  - rewrite (filter_no_logs _ (plan_no_logs this)). split; [simpl; lia|].
    intros cfgs' w' [= _ <-]. rewrite eventsSince_after.
    apply filter_no_logs, plan_no_logs.
  - split; [|done]. rewrite filter_app, Hquiet. simpl.
    assert (isLog (failing ev e) = false) as Hev.
    { pose proof (plan_no_logs this) as Hplan.
      rewrite Forall_forall in Hplan.
      specialize (Hplan ev (list_elem_of_lookup_2 _ _ _ Hn)). by destruct ev. }
    rewrite filter_cons_False by (by rewrite Hev).
    etrans; [apply length_filter|].
    destruct ev as [path err|target err|which err|err|]; simpl in Hlogs.
    + subst. simpl. lia.
    + case_decide; [subst; simpl; lia|].
      destruct Hlogs as (d & l & _ & ->). simpl. lia.
    + destruct Hlogs as (l & ->). simpl. lia.
    + subst. simpl. lia.
    + done.
  - split; [|done]. rewrite filter_app, Hquiet. simpl. lia.
Qed.

(** X13. When an installer fails during [Build], no optional domain is
    touched, and [Build] either logs the failure once through the logger at
    hand and returns the error with a nil bundle, or, if it is a logger
    installer that failed, panics on the spot. *)
Theorem installer_failure_ends_Build (b : loc) (this : configsBuilder)
    (w : World) (which : Installer) (e : error) :
  builders w !! b = Some this →
  EvInstall which (Some e) ∈ eventsSince w (worldOf (Build b w)) →
  domainsTouched (eventsSince w (worldOf (Build b w))) = []
  ∧ ∃ before,
      (∀ ev, ev ∈ before → failure ev = None)
      ∧ ((∃ l, Build b w =
               Returned (None, Some e)
                 (after w (before ++ [EvInstall which (Some e);
                                      EvLogError l (installMessage which) e])))
         ∨ (which ≠ OtlpTracing
            ∧ Build b w = Panicked (after w (before ++ [EvInstall which (Some e)])))).
Proof.
  intros Hb Hfail.
  destruct (Build_run b this w Hb)
    as [cfgs _ _ _ _ _|n ev e0 logs Hn Hlogs|n which0 e0 cfgs Hn Hwhy];
    simpl in Hfail; simpl; rewrite eventsSince_after in *.
  - by apply plan_succeeds in Hfail.
  - apply elem_of_app in Hfail as [Hfail|Hfail].
    { apply subseteq_take in Hfail. by apply plan_succeeds in Hfail. }
    apply elem_of_cons in Hfail as [Hfail|Hfail].
    2: { by destruct (loggedAfter_logs _ _ _ Hlogs _ Hfail) as (? & ? & ?). }
    destruct ev as [| |which0 err| |]; try done.
    simpl in Hfail. injection Hfail as <- <-.
    destruct Hlogs as (l & ->). split.
    + pose proof (plan_lookup_install this n which err Hn) as Hlt.
      unfold domainsTouched. rewrite omap_app. simpl. rewrite app_nil_r.
      fold (domainsTouched (take n (plan this))).
      rewrite domainsTouched_take_plan.
      by replace (n - length (basePlan ++ installPlan this)) with 0 by lia.
    + exists (take n (plan this)). split.
      * intros ev Hev%subseteq_take. by apply plan_succeeds in Hev.
      * left. by exists l.
  - apply elem_of_app in Hfail as [Hfail|Hfail].
    { apply subseteq_take in Hfail. by apply plan_succeeds in Hfail. }
    apply list_elem_of_singleton in Hfail. injection Hfail as <- <-.
    split.
    + pose proof (plan_lookup_install this n which None Hn) as Hlt.
      unfold domainsTouched. rewrite omap_app. simpl. rewrite app_nil_r.
      fold (domainsTouched (take n (plan this))).
      rewrite domainsTouched_take_plan.
      by replace (n - length (basePlan ++ installPlan this)) with 0 by lia.
    + exists (take n (plan this)). split.
      * intros ev Hev%subseteq_take. by apply plan_succeeds in Hev.
      * right. split; [|done]. by destruct Hwhy as [[-> _]|[-> _]].
Qed.

(** *** What [Build] depends on *)

Lemma newConfigs_uniform :
  ∃ (r : option Configs * option error) (evs : list Event),
    ∀ b w, newConfigs b w = Returned r (after w evs).
Proof.
  unfold newConfigs, setupViper, ReadInConfig, fn, call, deref, emit, return_,
    unmarshalInto, mbind, mret, Proc_bind, Proc_ret, bind, pure, after.
  simpl.
  destruct (readEnvFile _) as [entries|e]; simpl.
  2: { eexists _, _. intros b w. reflexivity. }
  destruct (Unmarshal _ (schemaOf AppSchema) _) as [app [e|]]; simpl.
  { eexists _, _. intros b w. rewrite <-!app_assoc. reflexivity. }
  destruct (Unmarshal _ (schemaOf OTLPSchema) _) as [ot [e|]]; simpl.
  { eexists _, _. intros b w. rewrite <-!app_assoc. reflexivity. }
  eexists _, _. intros b w. rewrite <-!app_assoc. reflexivity.
Qed.

Lemma setupObservability_uniform (cfgs : Configs) (on : bool) :
  ∃ (r : option (Configs * option error)) (evs : list Event),
    (∀ cfgs', r = Some (cfgs', None) → is_Some (Logger cfgs'))
    ∧ ∀ b w this, builders w !! b = Some this → otlp this = on →
        setupObservability b cfgs w =
        match r with
        | Some r => Returned r (after w evs)
        | None => Panicked (after w evs)
        end.
Proof.
  unfold setupObservability, fn, read, emit, logError, return_, panic,
    mbind, Proc_bind, bind, after.
  destruct on.
  - destruct (otlpLogging_Install cfgs) as [l|[l|] e] eqn:Hlog.
    + destruct (otlpTracing_Install (withLogger cfgs (Some l))) as [e|] eqn:Htr.
      * eexists (Some _), _. split; cycle 1.
        { intros b w this -> ->. simpl. rewrite ?Hlog. simpl. rewrite ?Htr. simpl.
          rewrite <-!app_assoc. reflexivity. }
        by intros ? [= <-].
      * eexists (Some _), _. split; cycle 1.
        { intros b w this -> ->. simpl. rewrite ?Hlog. simpl. rewrite ?Htr. simpl.
          rewrite <-!app_assoc. reflexivity. }
        intros ? [= <-]. by eexists.
    + eexists (Some _), _. split; cycle 1.
      { intros b w this -> ->. simpl. rewrite ?Hlog. simpl.
        rewrite <-!app_assoc. reflexivity. }
      by intros ? [= <-].
    + eexists None, _. split; [done|].
      intros b w this -> ->. simpl. rewrite ?Hlog. simpl. reflexivity.
  - destruct (noopLogging_Install cfgs) as [l|[l|] e] eqn:Hlog.
    + eexists (Some _), _. split; cycle 1.
      { intros b w this -> ->. simpl. rewrite ?Hlog. simpl. reflexivity. }
      intros ? [= <-]. by eexists.
    + eexists (Some _), _. split; cycle 1.
      { intros b w this -> ->. simpl. rewrite ?Hlog. simpl.
        rewrite <-!app_assoc. reflexivity. }
      by intros ? [= <-].
    + eexists None, _. split; [done|].
      intros b w this -> ->. simpl. rewrite ?Hlog. simpl. reflexivity.
Qed.

Lemma loadDomainsThen_uniform (ds : list Domain) (on : Domain → bool)
    (l : ZapLogger) (cfgs : Configs) :
  Logger cfgs = Some l →
  ∃ (r : Configs + error) (evs : list Event),
    ∀ A (rest : Configs → Proc (option Configs * option error) A) b w this,
      builders w !! b = Some this → (∀ d, enabled this d = on d) →
      loadDomainsThen ds b rest cfgs w =
      match r with
      | inl cfgs' => rest cfgs' (after w evs)
      | inr e => Return (None, Some e) (after w evs)
      end.
Proof.
  revert cfgs. induction ds as [|d ds IH]; intros cfgs Hl.
  { exists (inl cfgs), []. intros A rest b w this _ _. simpl.
    by rewrite after_nil. }
  destruct (on d) eqn:Hd.
  - destruct (loadError d cfgs) as [e|] eqn:He.
    + eexists (inr e), _. intros A rest b w this Hb Hon. simpl.
      rewrite (loadDomainThen_run _ _ _ _ _ _ _ Hb Hl), Hon, Hd, He.
      reflexivity.
    + destruct (IH (loaded d cfgs)) as (r & evs & Hrest).
      { by destruct (loaded_frame d cfgs) as (-> & _). }
      exists r, (EvUnmarshal (schemaFor d) None :: evs).
      intros A rest b w this Hb Hon. simpl.
      rewrite (loadDomainThen_run _ _ _ _ _ _ _ Hb Hl), Hon, Hd, He.
      rewrite (Hrest A rest b _ this) by done.
      rewrite after_after. reflexivity.
  - destruct (IH cfgs Hl) as (r & evs & Hrest).
    exists r, evs. intros A rest b w this Hb Hon. simpl.
    rewrite (loadDomainThen_run _ _ _ _ _ _ _ Hb Hl), Hon, Hd.
    by apply (Hrest A rest b w this).
Qed.

Lemma enabled_domainFlag (this : configsBuilder) (d : Domain) :
  enabled this d = flag (domainFlag d) this.
Proof. by destruct d. Qed.

(** For given flags, what [Build] returns and the calls it makes are the
    same on every live builder with these flags, in every world. *)
Lemma Build_uniform (on : Flag → bool) :
  ∃ (o : option (option Configs * option error)) (evs : list Event),
    ∀ b w this, builders w !! b = Some this → (∀ f, flag f this = on f) →
      Build b w =
      match o with
      | Some r => Returned r (after w evs)
      | None => Panicked (after w evs)
      end.
Proof.
  destruct newConfigs_uniform as ([[cfgs0|] [e|]] & evs0 & Hnew).
  - exists (Some (None, Some e)), evs0. intros b w this _ _.
    rewrite Build_blocks. unfold fn, call, mbind, Proc_bind, bind.
    by rewrite Hnew.
  - destruct (setupObservability_uniform cfgs0 (on FlagOtlp))
      as ([[cfgs1 [e|]]|] & evs1 & Hlogger & Hsetup).
    + exists (Some (None, Some e)), (evs0 ++ evs1). intros b w this Hb Hon.
      rewrite Build_blocks. unfold fn, call, mbind, Proc_bind, bind.
      rewrite Hnew. cbn -[loadDomainsThen setupObservability]. unfold pure.
      rewrite (Hsetup b _ this) by (done || apply (Hon FlagOtlp)).
      by rewrite after_after.
    + destruct (Hlogger cfgs1 eq_refl) as [l Hl].
      destruct (loadDomainsThen_uniform processingOrder
                  (λ d, on (domainFlag d)) l cfgs1 Hl) as (r & evs2 & Htail).
      exists (match r with
              | inl cfgs' => Some (Some cfgs', None)
              | inr e => Some (None, Some e)
              end), (evs0 ++ evs1 ++ evs2).
      intros b w this Hb Hon.
      rewrite Build_blocks. unfold fn, call, mbind, Proc_bind, bind.
      rewrite Hnew. cbn -[loadDomainsThen setupObservability]. unfold pure.
      rewrite (Hsetup b _ this) by (done || apply (Hon FlagOtlp)).
      rewrite (Htail _ _ b _ this)
        by (done || (intros d; by rewrite enabled_domainFlag)).
      destruct r; unfold return_; by rewrite !after_after, <-?app_assoc.
    + exists None, (evs0 ++ evs1). intros b w this Hb Hon.
      rewrite Build_blocks. unfold fn, call, mbind, Proc_bind, bind.
      rewrite Hnew. cbn -[loadDomainsThen setupObservability]. unfold pure.
      rewrite (Hsetup b _ this) by (done || apply (Hon FlagOtlp)).
      by rewrite after_after.
  - exists (Some (None, Some e)), evs0. intros b w this _ _.
    rewrite Build_blocks. unfold fn, call, mbind, Proc_bind, bind.
    by rewrite Hnew.
  - exists None, evs0. intros b w this _ _.
    rewrite Build_blocks. unfold fn, call, mbind, Proc_bind, bind.
    by rewrite Hnew.
Qed.

(** X14. What [Build] returns, whether it panics, and the calls it makes
    depend on the builder through its eight flags only: not on [Err], not
    on which builder it is, not on the other builders, not on what happened
    before. *)
Theorem Build_depends_on_flags_only (b1 b2 : loc) (this1 this2 : configsBuilder)
    (w1 w2 : World) :
  builders w1 !! b1 = Some this1 → builders w2 !! b2 = Some this2 →
  (∀ f, flag f this1 = flag f this2) →
  returned (Build b1 w1) = returned (Build b2 w2)
  ∧ eventsSince w1 (worldOf (Build b1 w1))
    = eventsSince w2 (worldOf (Build b2 w2)).
Proof.
  intros Hb1 Hb2 Hflags.
  destruct (Build_uniform (λ f, flag f this1)) as (o & evs & Hbuild).
  rewrite (Hbuild b1 w1 this1) by done.
  rewrite (Hbuild b2 w2 this2) by done.
  destruct o; simpl; by rewrite !eventsSince_after.
Qed.

(** X15. [Build] can be called again on the same builder: the second call
    returns what the first returned and makes the same calls. *)
Theorem Build_can_be_repeated (b : loc) (this : configsBuilder) (w : World) :
  builders w !! b = Some this →
  returned (Build b (worldOf (Build b w))) = returned (Build b w)
  ∧ eventsSince (worldOf (Build b w)) (worldOf (Build b (worldOf (Build b w))))
    = eventsSince w (worldOf (Build b w)).
Proof.
  intros Hb.
  assert (builders (worldOf (Build b w)) !! b = Some this) as Hb'
    by (by rewrite Build_builders).
  destruct (Build_uniform (λ f, flag f this)) as (o & evs & Hbuild).
  rewrite (Hbuild b (worldOf (Build b w)) this) by done.
  rewrite (Hbuild b w this) by done.
  destruct o; simpl; by rewrite !eventsSince_after.
Qed.

(** *** The bundle of a successful [Build] *)

Lemma newConfigs_success (b : loc) (w w1 : World) (cfgs0 : Configs) :
  newConfigs b w = Returned (Some cfgs0, None) w1 →
  ∃ entries,
    readEnvFile (EnvFile (Getenv "GO_ENV")) = inl entries
    ∧ Custom cfgs0 = injectAll (storeOf entries) [AppSchema; OTLPSchema]
    ∧ Logger cfgs0 = None
    ∧ (∀ d, attached d cfgs0 = None)
    ∧ w1 = after w basePlan.
Proof.
  unfold newConfigs, setupViper, ReadInConfig, fn, call, deref, emit, return_,
    unmarshalInto, mbind, mret, Proc_bind, Proc_ret, bind, pure, after,
    basePlan.
  simpl.
  destruct (readEnvFile _) as [entries|e]; simpl; [|done].
  destruct (Unmarshal _ (schemaOf AppSchema) _) as [app [e|]]; simpl; [done|].
  destruct (Unmarshal _ (schemaOf OTLPSchema) _) as [ot [e|]]; simpl; [done|].
  intros [= <- <-]. exists entries. simpl.
  split; [done|]. split; [done|]. split; [done|]. split; [by intros []|].
  by rewrite <-!app_assoc.
Qed.

Lemma setupObservability_success (b : loc) (this : configsBuilder)
    (cfgs cfgs1 : Configs) (w w1 : World) :
  builders w !! b = Some this →
  setupObservability b cfgs w = Returned (cfgs1, None) w1 →
  ∃ l, cfgs1 = withLogger cfgs (Some l)
    ∧ w1 = after w (installPlan this)
    ∧ if otlp this
      then otlpLogging_Install cfgs = Active l
           ∧ otlpTracing_Install (withLogger cfgs (Some l)) = None
      else noopLogging_Install cfgs = Active l.
Proof.
  intros Hb.
  unfold setupObservability, installPlan, fn, read, emit, logError, return_,
    panic, mbind, Proc_bind, bind, after.
  rewrite Hb. destruct (otlp this).
  - destruct (otlpLogging_Install cfgs) as [l|[l|] e]; simpl; [|done..].
    destruct (otlpTracing_Install _) as [e|] eqn:Htr; simpl; [done|].
    intros [= <- <-]. exists l. rewrite <-!app_assoc. done.
  - destruct (noopLogging_Install cfgs) as [l|[l|] e]; simpl; [|done..].
    intros [= <- <-]. by exists l.
Qed.

Lemma loaded_Custom (d : Domain) (cfgs : Configs) :
  Custom (loaded d cfgs)
  = loadStructDefaults (Custom cfgs) (pointerTo (schemaFor d)).
Proof. by destruct d. Qed.

Lemma loadDomainsThen_success (ds : list Domain) (b : loc)
    (this : configsBuilder) (cfgs cfgs' : Configs) (l : ZapLogger)
    (w w' : World) :
  builders w !! b = Some this → Logger cfgs = Some l →
  fn (loadDomainsThen ds b (λ c, return_ (Some c, None)) cfgs) w
  = Returned (Some cfgs', None) w' →
  Custom cfgs'
  = injectAll (Custom cfgs)
      (schemaFor <$> filter (λ d, enabled this d = true) ds)
  ∧ Logger cfgs' = Some l
  ∧ AppConfigs cfgs' = AppConfigs cfgs
  ∧ OTLPConfigs cfgs' = OTLPConfigs cfgs.
Proof.
  revert cfgs w. induction ds as [|d ds IH]; intros cfgs w Hb Hl.
  { unfold fn, return_. simpl. by intros [= <- _]. }
  unfold fn in *. cbn [loadDomainsThen].
  rewrite (loadDomainThen_run _ _ _ _ _ _ _ Hb Hl).
  destruct (enabled this d) eqn:Hd.
  - rewrite filter_cons_True by done. rewrite fmap_cons.
    destruct (loadError d cfgs) as [e|]; [done|].
    destruct (loaded_frame d cfgs) as (Hl' & Ha' & Ho').
    intros Htail. apply IH in Htail as (-> & ? & -> & ->);
      [|done|congruence].
    rewrite loaded_Custom. by repeat split.
  - rewrite filter_cons_False by (by rewrite Hd). by apply IH.
Qed.

(** A successful [Build], step by step. *)
Lemma Build_success (b : loc) (this : configsBuilder) (w w' : World)
    (cfgs : Configs) :
  builders w !! b = Some this →
  Build b w = Returned (Some cfgs, None) w' →
  ∃ entries base l,
    readEnvFile (EnvFile (Getenv "GO_ENV")) = inl entries
    ∧ Custom base = injectAll (storeOf entries) [AppSchema; OTLPSchema]
    ∧ Logger base = None
    ∧ (∀ d, attached d base = None)
    ∧ (if otlp this
       then otlpLogging_Install base = Active l
            ∧ otlpTracing_Install (withLogger base (Some l)) = None
       else noopLogging_Install base = Active l)
    ∧ Custom cfgs
      = injectAll (Custom base)
          (schemaFor <$> filter (λ d, enabled this d = true) processingOrder)
    ∧ Logger cfgs = Some l
    ∧ AppConfigs cfgs = AppConfigs base
    ∧ OTLPConfigs cfgs = OTLPConfigs base.
Proof.
  intros Hb. rewrite Build_blocks. unfold fn at 1.
  unfold call, mbind, Proc_bind, bind.
  destruct (newConfigs b w) as [[[base|] [e|]] w1|w1] eqn:Hnew;
    cbn -[loadDomainsThen setupObservability]; try done.
  apply newConfigs_success in Hnew as (entries & Hfile & Hbase & Hl0 & Hd0 & ->).
  unfold pure.
  destruct (setupObservability b base (after w basePlan))
    as [[cfgs1 [e|]] w2|w2] eqn:Hsetup;
    cbn -[loadDomainsThen]; try done.
  apply (setupObservability_success b this) in Hsetup
    as (l & -> & -> & Hinstall); [|done].
  intros Htail.
  apply (loadDomainsThen_success processingOrder b this _ cfgs l) in Htail
    as (Hcustom & Hl & Ha & Ho); [|done..].
  exists entries, base, l. by repeat split.
Qed.

Lemma injectAll_frame (ss : list Schema) (v : Viper) :
  configFile (injectAll v ss) = configFile v
  ∧ configType (injectAll v ss) = configType v
  ∧ automaticEnvApplied (injectAll v ss) = automaticEnvApplied v
  ∧ config (injectAll v ss) = config v.
Proof.
  revert v. induction ss as [|s ss IH]; intros v; [done|].
  unfold injectAll in *. simpl.
  destruct (IH (loadStructDefaults v (pointerTo s))) as (-> & -> & -> & ->).
  unfold pointerTo. rewrite loadStructDefaults_pointer.
  apply foldl_register_frame.
Qed.

(** X16. The store in the bundle of a successful [Build] is the store
    read from the environment file, with the automatic environment on, in
    which the Default Injector was run for the application schema, the
    observability schema and the enabled domains in their processing order,
    and for nothing else: it carries the defaults of every schema that was
    loaded, whichever domain they came from. *)
Theorem Build_store_carries_loaded_defaults (b : loc) (this : configsBuilder)
    (w w' : World) (cfgs : Configs) :
  builders w !! b = Some this →
  Build b w = Returned (Some cfgs, None) w' →
  ∃ entries,
    readEnvFile (EnvFile (Getenv "GO_ENV")) = inl entries
    ∧ Custom cfgs = injectAll (storeOf entries) (loadedSchemas this)
    ∧ config (Custom cfgs) = entries
    ∧ automaticEnvApplied (Custom cfgs) = true
    ∧ configType (Custom cfgs) = "env".
Proof.
  intros Hb Hbuild.
  destruct (Build_success b this w w' cfgs Hb Hbuild)
    as (entries & base & l & Hfile & Hbase & _ & _ & _ & Hcustom & _).
  exists entries. split; [done|].
  assert (Custom cfgs = injectAll (storeOf entries) (loadedSchemas this)) as ->.
  { rewrite Hcustom, Hbase. unfold injectAll, loadedSchemas.
    by rewrite foldl_app. }
  split; [done|].
  by destruct (injectAll_frame (loadedSchemas this) (storeOf entries))
    as (_ & -> & -> & ->).
Qed.

(** X17. The logger in the bundle of a successful [Build] is the one the
    installer selected by the [otlp] flag returned: the OTLP logger when the
    flag is set, in which case the tracer was installed after it on the
    bundle that already carries the logger, and the no-op logger otherwise.
    The installer is handed the base bundle: both base schemas, no logger,
    no optional domain. *)
Theorem Build_logger_is_the_selected_one (b : loc) (this : configsBuilder)
    (w w' : World) (cfgs : Configs) :
  builders w !! b = Some this →
  Build b w = Returned (Some cfgs, None) w' →
  ∃ base l,
    Logger cfgs = Some l
    ∧ AppConfigs base = AppConfigs cfgs ∧ OTLPConfigs base = OTLPConfigs cfgs
    ∧ Logger base = None
    ∧ (∀ d, attached d base = None)
    ∧ if otlp this
      then otlpLogging_Install base = Active l
           ∧ otlpTracing_Install (withLogger base (Some l)) = None
      else noopLogging_Install base = Active l.
Proof.
  intros Hb Hbuild.
  destruct (Build_success b this w w' cfgs Hb Hbuild)
    as (entries & base & l & _ & _ & Hl0 & Hd0 & Hinstall & _ & Hl & Ha & Ho).
  exists base, l. by repeat split.
Qed.

(** *** The fields of a built bundle *)

Lemma decodeFields_ok (v : Viper) (typ : StructType) (inst : Instance)
    (i : nat) (field : StructField) :
  (decodeFields v typ inst).2 = None → length inst = length typ →
  typ !! i = Some field →
  ∃ x, decode field (fieldSource v field) = inl x.
Proof.
  revert inst i. induction typ as [|f typ IH]; intros inst i Herr Hlen Hi; [done|].
  destruct inst as [|s inst]; [done|]. simpl in Herr, Hlen.
  destruct (decodeFields v typ inst) as [rest err] eqn:Hrest.
  destruct (decode f (fieldSource v f)) as [x|e] eqn:Hf; [|done].
  simpl in Herr. subst err.
  destruct i as [|i]; simpl in Hi.
  - simplify_eq. by exists x.
  - apply (IH inst i); [by rewrite Hrest|lia|done].
Qed.

Lemma loadDomainsThen_frame (ds : list Domain) (b : loc)
    (this : configsBuilder) (cfgs cfgs' : Configs) (l : ZapLogger)
    (w w' : World) (d : Domain) :
  builders w !! b = Some this → Logger cfgs = Some l →
  fn (loadDomainsThen ds b (λ c, return_ (Some c, None)) cfgs) w
  = Returned (Some cfgs', None) w' →
  d ∉ ds → attached d cfgs' = attached d cfgs.
Proof.
  revert cfgs w. induction ds as [|d0 ds IH]; intros cfgs w Hb Hl.
  { unfold fn, return_. simpl. by intros [= <- _]. }
  unfold fn in *. cbn [loadDomainsThen].
  rewrite (loadDomainThen_run _ _ _ _ _ _ _ Hb Hl).
  intros Htail Hnin. apply not_elem_of_cons in Hnin as [Hne Hnin].
  destruct (enabled this d0).
  - destruct (loadError d0 cfgs) as [e|]; [done|].
    destruct (loaded_frame d0 cfgs) as (Hl' & _).
    apply IH in Htail; [|done|congruence|done].
    by rewrite Htail, attached_loaded, decide_False.
  - by apply IH in Htail.
Qed.

(** Where the block of an enabled domain found the store, and what it
    left in the bundle. *)
Lemma loadDomainsThen_attached (ds : list Domain) (b : loc)
    (this : configsBuilder) (cfgs cfgs' : Configs) (l : ZapLogger)
    (w w' : World) (d : Domain) :
  builders w !! b = Some this → Logger cfgs = Some l → NoDup ds →
  fn (loadDomainsThen ds b (λ c, return_ (Some c, None)) cfgs) w
  = Returned (Some cfgs', None) w' →
  d ∈ ds → enabled this d = true →
  ∃ c, config (Custom c) = config (Custom cfgs)
    ∧ automaticEnvApplied (Custom c) = automaticEnvApplied (Custom cfgs)
    ∧ loadError d c = None
    ∧ attached d cfgs' = attached d (loaded d c).
Proof.
  revert cfgs w. induction ds as [|d0 ds IH]; intros cfgs w Hb Hl Hnd.
  { intros _ Hin. by apply not_elem_of_nil in Hin. }
  apply NoDup_cons in Hnd as [Hfresh Hnd].
  intros Hbuild Hin Hen. pose proof Hbuild as Htail.
  unfold fn in Htail. cbn [loadDomainsThen] in Htail.
  rewrite (loadDomainThen_run _ _ _ _ _ _ _ Hb Hl) in Htail.
  destruct (loaded_frame d0 cfgs) as (Hl' & _).
  assert (config (Custom (loaded d0 cfgs)) = config (Custom cfgs)
          ∧ automaticEnvApplied (Custom (loaded d0 cfgs))
            = automaticEnvApplied (Custom cfgs)) as [Hc Ha].
  { rewrite loaded_Custom. unfold pointerTo.
    rewrite loadStructDefaults_pointer.
    by destruct (foldl_register_frame (registrations (schemaOf (schemaFor d0)))
                   (Custom cfgs)) as (_ & _ & -> & ->). }
  apply elem_of_cons in Hin as [->|Hin].
  - rewrite Hen in Htail. destruct (loadError d0 cfgs) as [e|] eqn:He; [done|].
    exists cfgs. split; [done|]. split; [done|]. split; [done|].
    apply (loadDomainsThen_frame ds b this (loaded d0 cfgs) cfgs' l
             (after w [EvUnmarshal (schemaFor d0) None]) w' d0);
      [done|congruence|exact Htail|exact Hfresh].
  - destruct (enabled this d0).
    + destruct (loadError d0 cfgs) as [e|]; [done|].
      assert (Logger (loaded d0 cfgs) = Some l) as Hl'' by congruence.
      destruct (IH (loaded d0 cfgs) (after w [EvUnmarshal (schemaFor d0) None])
                  Hb Hl'' Hnd Htail Hin Hen)
        as (c & Hc' & Ha' & ? & ?).
      exists c. split; [by rewrite Hc', Hc|]. split; [by rewrite Ha', Ha|]. done.
    + by apply (IH cfgs w).
Qed.

Lemma NoDup_processingOrder : NoDup processingOrder.
Proof.
  unfold processingOrder.
  repeat (apply NoDup_cons; split;
          [intros Hin;
           repeat (apply elem_of_cons in Hin as [Hin|Hin]; [discriminate|]);
           by apply not_elem_of_nil in Hin|]).
  apply NoDup_nil_2.
Qed.

(** X18. In the bundle of a successful [Build], a field of an enabled
    domain that carries both annotations holds the decoded
    live-environment value of its key, else the decoded file value, else the
    decoded default registered last under that key in its own schema:
    whatever the schemas loaded before it registered does not reach it. *)
Theorem built_field_holds_explicit_or_default (b : loc) (this : configsBuilder)
    (w w' : World) (cfgs : Configs) (d : Domain) (i : nat)
    (field : StructField) (k dft : string) :
  builders w !! b = Some this →
  Build b w = Returned (Some cfgs, None) w' →
  enabled this d = true →
  schemaOf (schemaFor d) !! i = Some field →
  declaresBoth field = Some (k, dft) →
  ∃ entries inst x,
    readEnvFile (EnvFile (Getenv "GO_ENV")) = inl entries
    ∧ attached d cfgs = Some inst
    ∧ inst !! i = Some (Some x)
    ∧ decode field
        (Some (match environ !! ToUpper (ToLower k) with
               | Some live => live
               | None =>
                   match entries !! ToLower k with
                   | Some filed => filed
                   | None => fallback (schemaOf (schemaFor d)) i k dft
                   end
               end))
      = inl x.
Proof.
  intros Hb Hbuild Hen Hi Hboth.
  destruct (Build_success b this w w' cfgs Hb Hbuild)
    as (entries & base & l & Hfile & Hbase & _ & _ & _ & _ & _).
  revert Hbuild. rewrite Build_blocks. unfold fn at 1.
  unfold call, mbind, Proc_bind, bind.
  destruct (newConfigs b w) as [[[base'|] [e|]] w1|w1] eqn:Hnew;
    cbn -[loadDomainsThen setupObservability]; try done.
  apply newConfigs_success in Hnew as (entries' & Hfile' & Hbase' & _ & _ & ->).
  rewrite Hfile in Hfile'. injection Hfile' as <-.
  unfold pure.
  destruct (setupObservability b base' (after w basePlan))
    as [[cfgs1 [e|]] w2|w2] eqn:Hsetup;
    cbn -[loadDomainsThen]; try done.
  apply (setupObservability_success b this) in Hsetup
    as (l' & -> & -> & _); [|done].
  intros Htail.
  assert (builders (after (after w basePlan) (installPlan this)) !! b
          = Some this) as Hb2 by done.
  assert (Logger (withLogger base' (Some l')) = Some l') as Hl2 by done.
  destruct (loadDomainsThen_attached processingOrder b this
              (withLogger base' (Some l')) cfgs l'
              (after (after w basePlan) (installPlan this)) w' d
              Hb2 Hl2 NoDup_processingOrder Htail
              (elem_of_processingOrder d) Hen)
    as (c & Hc & Ha & Herr & Hatt).
  simpl in Hc, Ha. rewrite Hbase' in Hc, Ha.
  destruct (injectAll_frame [AppSchema; OTLPSchema] (storeOf entries))
    as (_ & _ & Ha0 & Hc0).
  rewrite Hc0 in Hc. rewrite Ha0 in Ha. simpl in Hc, Ha.
  rewrite attached_loaded, decide_True in Hatt by done.
  pose proof (fieldSource_injected (Custom c) _ _ _ _ _ Hi Hboth) as Hsrc.
  assert (explicit (Custom c) (ToLower k)
          = match environ !! ToUpper (ToLower k) with
            | Some live => Some live
            | None => entries !! ToLower k
            end) as Hexp.
  { unfold explicit. by rewrite Ha, Hc. }
  unfold loadError, Unmarshal in Herr.
  destruct (decodeFields_ok _ _ _ i field Herr) as [x Hx];
    [unfold new_instance; by rewrite length_replicate|done|].
  eexists entries, _, x. split; [done|]. split; [exact Hatt|]. split.
  - unfold Unmarshal. erewrite decodeFields_lookup; [|done|].
    + unfold pointerTo in *. by rewrite Hx.
    + unfold new_instance. apply lookup_replicate_2.
      by apply lookup_lt_Some in Hi.
  - unfold pointerTo in Hx. rewrite Hsrc, Hexp in Hx. rewrite <-Hx.
    by destruct (environ !! ToUpper (ToLower k)), (entries !! ToLower k).
Qed.

End build_more.

(** ** The earlier [Build], beyond the claims *)

Section legacy_more.
Context `{Legacy.Collaborators}.








End legacy_more.

(** ** The further properties at work *)

Section more_examples.
#[local] Existing Instance Sample.host.
#[local] Existing Instance Sample.working.
#[local] Existing Instance Sample.legacy.

Lemma injector_order_irrelevant_witness :
  loadStructDefaults New (PtrTo (StructV (Sample.schemas HTTPSchema)))
  = loadStructDefaults New (PtrTo (StructV Sample2.swapped)).
Proof.
  apply injector_order_irrelevant.
  - apply perm_swap.
  - assert (registrations (Sample.schemas HTTPSchema) = [("HTTP_PORT", "8080")])
      as -> by reflexivity.
    apply NoDup_singleton.
Defined.

Lemma earlier_defaults_reach_later_schemas_witness :
  fieldSource
    (loadStructDefaults
       (loadStructDefaults New (PtrTo (StructV (Sample.schemas HTTPSchema))))
       (PtrTo (StructV [Sample2.barePort]))) Sample2.barePort
  = Some "8080".
Proof.
  apply (earlier_defaults_reach_later_schemas New (Sample.schemas HTTPSchema)
           [Sample2.barePort] Sample2.barePort "http_port" "8080").
  - reflexivity.
  - vm_compute. reflexivity.
  - vm_compute. reflexivity.
  - vm_compute. reflexivity.
Defined.

Lemma chained_enables_set_their_flags_witness :
  ∃ b w0 this,
    NewConfigsBuilder Sample.world = Returned b w0
    ∧ builders (runOps (chained [FlagHTTP; FlagAWS; FlagHTTP] b) w0) !! b
      = Some this
    ∧ http this = true ∧ aws this = true ∧ mqtt this = false.
Proof.
  destruct (NewConfigsBuilder Sample.world) as [b w0|w0] eqn:Hnew.
  2: { destruct (NewConfigsBuilder_run Sample.world) as (b & Hrun & _).
       rewrite Hrun in Hnew. discriminate Hnew. }
  destruct (chained_enables_set_their_flags [FlagHTTP; FlagAWS; FlagHTTP]
              b Sample.world w0 Hnew) as (this & Hlookup & Hflags & _).
  exists b, w0, this. split; [done|]. split; [done|].
  split; [|split].
  - apply (Hflags FlagHTTP). left.
  - apply (Hflags FlagAWS). right. left.
  - destruct (mqtt this) eqn:Hmqtt; [|done].
    apply (Hflags FlagMQTT) in Hmqtt.
    repeat (apply elem_of_cons in Hmqtt as [Hmqtt|Hmqtt]; [discriminate|]).
    by apply not_elem_of_nil in Hmqtt.
Defined.

Lemma dangling_receiver_witness :
  MQTT 9%positive Sample.world = Panicked Sample.world.
Proof.
  assert (builders Sample.world !! 9%positive = None) as Hb by reflexivity.
  exact (proj1 (dangling_receiver 9%positive Sample.world Hb) FlagMQTT).
Defined.

Lemma Build_exit_contract_witness :
  (∃ cfgs w', Build 2%positive Sample.world = Returned (Some cfgs, None) w')
  ∨ (∃ e w', Build 2%positive Sample.world = Returned (None, Some e) w')
  ∨ (∃ w' cfgs e,
       Build 2%positive Sample.world = Panicked w'
       ∧ (otlpLogging_Install cfgs = Failed None e
          ∨ noopLogging_Install cfgs = Failed None e)).
Proof.
  assert (builders Sample.world !! 2%positive = Some Sample.httpAndPostgres)
    as Hb by reflexivity.
  apply (Build_exit_contract 2%positive _ Sample.world Hb).
Defined.

Lemma Build_returns_load_error_witness :
  returned (@Build Sample2.lost Sample2.lostInstallers 1%positive Sample.world)
  = Some (None, Some "open: no such file or directory").
Proof.
  assert (@readEnvFile Sample2.lost (@EnvFile Sample2.lost (@Getenv Sample2.lost "GO_ENV"))
          = inr "open: no such file or directory") as Hfile
    by (vm_compute; reflexivity).
  destruct (@Build_returns_load_error Sample2.lost Sample2.lostInstallers
              Sample2.lostLegacy
              1%positive Sample.world _ Hfile) as [-> _].
  reflexivity.
Defined.

Lemma base_failure_is_returned_unlogged_witness :
  eventsSince Sample.world
    (worldOf (@Build Sample2.strict Sample2.strictInstallers 1%positive
                Sample.world))
  = [EvReadInConfig ".env.development" None;
     EvUnmarshal AppSchema (Some "no value for Name")].
Proof.
  assert (builders Sample.world !! 1%positive = Some Sample.httpOnly)
    as Hb by reflexivity.
  rewrite (@base_failure_is_returned_unlogged Sample2.strict
             Sample2.strictInstallers
             1%positive _ Sample.world AppSchema "no value for Name" Hb).
  - simpl. rewrite eventsSince_after. vm_compute. reflexivity.
  - by left.
  - apply (list_elem_of_lookup_2 _ 1). vm_compute. reflexivity.
Defined.

Lemma Build_logs_at_most_one_error_witness :
  length (filter (λ ev, isLog ev = true)
            (eventsSince Sample.world (worldOf (Build 2%positive Sample.world))))
  ≤ 1.
Proof.
  assert (builders Sample.world !! 2%positive = Some Sample.httpAndPostgres)
    as Hb by reflexivity.
  apply (Build_logs_at_most_one_error 2%positive _ Sample.world Hb).
Defined.

Lemma installer_failure_ends_Build_witness :
  domainsTouched
    (eventsSince Sample.world
       (worldOf (@Build Sample.host Sample2.untraced 3%positive Sample.world)))
  = [].
Proof.
  assert (builders Sample.world !! 3%positive = Some Sample.otlpOnly)
    as Hb by reflexivity.
  apply (@installer_failure_ends_Build Sample.host Sample2.untraced
           3%positive _ Sample.world OtlpTracing "tracer: collector unreachable" Hb).
  apply (list_elem_of_lookup_2 _ 4). vm_compute. reflexivity.
Defined.

Lemma Build_depends_on_flags_only_witness :
  returned (Build 1%positive Sample.world)
  = returned (Build 5%positive Sample2.elsewhere).
Proof.
  assert (builders Sample.world !! 1%positive = Some Sample.httpOnly)
    as Hb1 by reflexivity.
  assert (builders Sample2.elsewhere !! 5%positive = Some Sample2.marked)
    as Hb2 by reflexivity.
  apply (Build_depends_on_flags_only 1%positive 5%positive _ _
           Sample.world Sample2.elsewhere Hb1 Hb2).
  by intros [].
Defined.

Lemma Build_can_be_repeated_witness :
  returned (Build 1%positive (worldOf (Build 1%positive Sample.world)))
  = returned (Build 1%positive Sample.world).
Proof.
  assert (builders Sample.world !! 1%positive = Some Sample.httpOnly)
    as Hb by reflexivity.
  apply (Build_can_be_repeated 1%positive _ Sample.world Hb).
Defined.

(** The scenario of the specification: the file declares the host only,
    the schema a default port; with HTTP alone enabled the bundle holds
    host [localhost] and port [8080]. *)
Lemma built_field_holds_explicit_or_default_witness :
  ∃ cfgs w' inst,
    Build 1%positive Sample.world = Returned (Some cfgs, None) w'
    ∧ HTTPConfigs cfgs = Some inst
    ∧ inst !! 1 = Some (Some "8080").
Proof.
  assert (builders Sample.world !! 1%positive = Some Sample.httpOnly)
    as Hb by reflexivity.
  assert (match Build 1%positive Sample.world with
          | Returned (Some _, None) _ => true
          | _ => false
          end = true) as Hok by (vm_compute; reflexivity).
  destruct (Build 1%positive Sample.world) as [[[cfgs|] [e|]] w'|w'] eqn:Hbuild;
    try discriminate Hok.
  assert (schemaOf (schemaFor DomHTTP) !! 1 = Some Sample.portField) as Hfield
    by reflexivity.
  assert (declaresBoth Sample.portField = Some ("HTTP_PORT", "8080")) as Hboth
    by reflexivity.
  destruct (built_field_holds_explicit_or_default 1%positive _ _ _ _ DomHTTP 1
              _ _ _ Hb Hbuild eq_refl Hfield Hboth)
    as (entries & inst & x & Hfile & Hatt & Hslot & Hdecode).
  assert (entries = {["http_host" := "localhost"]}) as ->.
  { assert (readEnvFile (EnvFile (Getenv "GO_ENV"))
            = inl {["http_host" := "localhost"]}) as Hfile'
      by (vm_compute; reflexivity).
    rewrite Hfile in Hfile'. by injection Hfile'. }
  assert (x = "8080") as ->.
  { vm_compute in Hdecode. by injection Hdecode. }
  exists cfgs, w', inst. split; [done|]. split; [exact Hatt|]. exact Hslot.
Defined.

Lemma Build_store_carries_loaded_defaults_witness :
  ∃ cfgs w',
    Build 1%positive Sample.world = Returned (Some cfgs, None) w'
    ∧ defaults (Custom cfgs) !! "http_port" = Some "8080"
    ∧ config (Custom cfgs) !! "http_host" = Some "localhost".
Proof.
  assert (builders Sample.world !! 1%positive = Some Sample.httpOnly)
    as Hb by reflexivity.
  assert (match Build 1%positive Sample.world with
          | Returned (Some _, None) _ => true
          | _ => false
          end = true) as Hok by (vm_compute; reflexivity).
  destruct (Build 1%positive Sample.world) as [[[cfgs|] [e|]] w'|w'] eqn:Hbuild;
    try discriminate Hok.
  destruct (Build_store_carries_loaded_defaults 1%positive _ _ _ _ Hb Hbuild)
    as (entries & Hfile & Hstore & Hconfig & _).
  assert (readEnvFile (EnvFile (Getenv "GO_ENV"))
          = inl {["http_host" := "localhost"]}) as Hfile'
    by (vm_compute; reflexivity).
  rewrite Hfile in Hfile'. injection Hfile' as ->.
  exists cfgs, w'. split; [done|]. split.
  - rewrite Hstore. vm_compute. reflexivity.
  - rewrite Hconfig. vm_compute. reflexivity.
Defined.

Lemma Build_logger_is_the_selected_one_witness :
  ∃ cfgs w',
    Build 1%positive Sample.world = Returned (Some cfgs, None) w'
    ∧ Logger cfgs = Some 0.
Proof.
  assert (builders Sample.world !! 1%positive = Some Sample.httpOnly)
    as Hb by reflexivity.
  assert (match Build 1%positive Sample.world with
          | Returned (Some _, None) _ => true
          | _ => false
          end = true) as Hok by (vm_compute; reflexivity).
  destruct (Build 1%positive Sample.world) as [[[cfgs|] [e|]] w'|w'] eqn:Hbuild;
    try discriminate Hok.
  destruct (Build_logger_is_the_selected_one 1%positive _ _ _ _ Hb Hbuild)
    as (base & l & Hlogger & _ & _ & _ & _ & Hnoop).
  exists cfgs, w'. split; [done|].
  rewrite Hlogger. simpl in Hnoop. by injection Hnoop as ->.
Defined.




End more_examples.
